(** * callattendant: the call processing engine of [app.py]

    A shallow embedding of [CallAttendant.handle_caller], [CallAttendant.run]
    and [CallAttendant.answer_call].  The collaborators of the engine (the
    screener, the logger, the modem, the indicators and the voice mail) are
    objects whose code lives elsewhere; they are an interface here, and every
    theorem holds for all implementations of it.  A call of a collaborator
    either returns or raises, may change the state of the outside world, and
    is recorded, with its arguments, in the trace of the computation. *)

From stdpp Require Import base strings list gmap pretty.

Open Scope Z_scope.

(** ** Python values, exceptions *)

(** The values a caller dict holds under its keys. *)
Inductive pyval :=
| PyStr (s : string)
| PyInt (n : Z)
| PyNone.

(** A caller is a Python dict with string keys. *)
Abbreviation caller := (gmap string pyval).

(** A Python [str] is a sequence of code points; it is held here as the
    bytes of its UTF-8 encoding, in which a code point is a first byte
    followed by its continuation bytes (the bytes 10xxxxxx). *)
Definition is_continuation (b : Ascii.ascii) : bool :=
  match b with
  | Ascii.Ascii _ _ _ _ _ _ b6 b7 => b7 && negb b6
  end.

Definition starts_with_continuation (c : string) : bool :=
  match c with
  | String b _ => is_continuation b
  | EmptyString => false
  end.

(** The code points of a string, each with its bytes. *)
Fixpoint code_points (s : string) : list string :=
  match s with
  | EmptyString => []
  | String b s' =>
      match code_points s' with
      | c :: cs =>
          if starts_with_continuation c then String b c :: cs
          else String b EmptyString :: c :: cs
      | [] => [String b EmptyString]
      end
  end.

(** The string of a list of code points. *)
Definition join (cs : list string) : string := foldr String.append EmptyString cs.

(** [s[start:stop]] on a [str], for non-negative bounds; a [stop] of
    [None] is the open slice [s[start:]].  The bounds count code points,
    and a bound past the end is the end. *)
Definition str_slice (s : string) (start : nat) (stop : option nat) : string :=
  let cs := code_points s in
  join (take (default (length cs) stop - start)%nat (drop start cs)).

(** The built-in exception classes the engine can meet, and two of the
    classes that are not below [Exception]. *)
Inductive exn_class :=
| BaseException
| KeyboardInterrupt
| SystemExit
| Exception
| LookupError
| KeyError
| TypeError
| NameError
| UnboundLocalError
| RuntimeError
| NotImplementedError
| OSError.

Definition parent (c : exn_class) : option exn_class :=
  match c with
  | BaseException => None
  | KeyboardInterrupt | SystemExit | Exception => Some BaseException
  | LookupError | TypeError | NameError | RuntimeError | OSError => Some Exception
  | KeyError => Some LookupError
  | UnboundLocalError => Some NameError
  | NotImplementedError => Some RuntimeError
  end.

Definition exn_class_eqb (c d : exn_class) : bool :=
  match c, d with
  | BaseException, BaseException | KeyboardInterrupt, KeyboardInterrupt
  | SystemExit, SystemExit | Exception, Exception
  | LookupError, LookupError | KeyError, KeyError | TypeError, TypeError
  | NameError, NameError | UnboundLocalError, UnboundLocalError
  | RuntimeError, RuntimeError | NotImplementedError, NotImplementedError
  | OSError, OSError => true
  | _, _ => false
  end.

(** [issubclass c d]: the hierarchy above is at most four levels deep. *)
Fixpoint issubclass_upto (depth : nat) (c d : exn_class) : bool :=
  exn_class_eqb c d ||
  match depth, parent c with
  | S depth', Some p => issubclass_upto depth' p d
  | _, _ => false
  end.

Definition issubclass : exn_class → exn_class → bool := issubclass_upto 4.

Record exn := mkExn { exn_cls : exn_class; exn_msg : string }.

(** [str(e)], as "{}".format(e) prints it: a [KeyError] shows the repr of
    its key. *)
Definition exn_str (e : exn) : string :=
  match exn_cls e with
  | KeyError => "'" +:+ exn_msg e +:+ "'"
  | _ => exn_msg e
  end.

(** What an [except C] clause tests. *)
Definition isinstance (e : exn) (c : exn_class) : bool := issubclass (exn_cls e) c.

(** The result of a call: a value, or a raised exception. *)
Inductive res (A : Type) :=
| Ret (a : A)
| Raise (e : exn).
Arguments Ret {A} a.
Arguments Raise {A} e.

(** ** The trace *)

(** Everything the engine does that the outside can see, in the order it
    does it: what it prints, and the calls it makes on its collaborators. *)
Inductive event :=
| EPrint (s : string)
| EPPrintCaller (c : caller)
| EPPrintExn (e : exn)
| EHandleCalls
| EQueueGet (c : caller)
| EIsWhitelisted (c : caller)
| EIsBlacklisted (c : caller)
| EApprovedBlink
| EBlockedBlink
| ELogCaller (c : caller) (action reason : string)
| ERingWait (timeout : Z)
| EPickUp
| EHangUp
| EPlayAudio (greeting : string)
| ERecordMessage (call_no : Z) (c : caller)
| EVoiceMessagingMenu (call_no : Z) (c : caller).

Definition is_hang_up (e : event) : bool :=
  match e with EHangUp => true | _ => false end.
Definition is_pick_up (e : event) : bool :=
  match e with EPickUp => true | _ => false end.
Definition is_log_caller (e : event) : bool :=
  match e with ELogCaller _ _ _ => true | _ => false end.
Definition is_is_whitelisted (e : event) : bool :=
  match e with EIsWhitelisted _ => true | _ => false end.
Definition is_is_blacklisted (e : event) : bool :=
  match e with EIsBlacklisted _ => true | _ => false end.
Definition is_record_message (e : event) : bool :=
  match e with ERecordMessage _ _ => true | _ => false end.
Definition is_voice_messaging_menu (e : event) : bool :=
  match e with EVoiceMessagingMenu _ _ => true | _ => false end.
Definition is_ring_wait (e : event) : bool :=
  match e with ERingWait _ => true | _ => false end.
Definition is_queue_get (e : event) : bool :=
  match e with EQueueGet _ => true | _ => false end.

Definition is_print (e : event) : bool :=
  match e with EPrint _ => true | _ => false end.
(** The three answer actions. *)
Definition is_action (e : event) : bool :=
  match e with
  | EPlayAudio _ | ERecordMessage _ _ | EVoiceMessagingMenu _ _ => true
  | _ => false
  end.

(** How many events of a kind a trace holds. *)
Fixpoint count (p : event → bool) (t : list event) : nat :=
  match t with
  | [] => 0
  | e :: t' => (if p e then 1 else 0) + count p t'
  end.

(** ** Configuration *)

(** What [config.get_namespace("PERMITTED_")] and its siblings hold. *)
Record namespace := mkNamespace {
  actions : list string;
  greeting_file : string;
  rings_before_answer : Z
}.

Record Config := mkConfig {
  DEBUG : bool;
  SCREENING_MODE : list string;
  BLOCKED_ : namespace;
  SCREENED_ : namespace;
  PERMITTED_ : namespace
}.

(** The rings heard before the first wait that timed out: the length of
    the run of [true] a list of wait outcomes starts with. *)
Fixpoint rings_heard (signals : list bool) : nat :=
  match signals with
  | true :: signals' => S (rings_heard signals')
  | _ => 0
  end.

(** ** The collaborators *)

(** The objects [CallAttendant.__init__] creates, as functions on the state
    [W] of the world outside the engine.  [modem_ring_event_wait] is
    [threading.Event.wait], which returns a bool and does not raise. *)
Class Collaborators (W : Type) := {
  screener_is_whitelisted : caller → W → res (bool * string) * W;
  screener_is_blacklisted : caller → W → res (bool * string) * W;
  approved_indicator_blink : W → res unit * W;
  blocked_indicator_blink : W → res unit * W;
  logger_log_caller : caller → string → string → W → res Z * W;
  modem_handle_calls : W → res unit * W;
  modem_ring_event_wait : Z → W → bool * W;
  modem_pick_up : W → res bool * W;
  modem_hang_up : W → res unit * W;
  modem_play_audio : string → W → res unit * W;
  voice_mail_record_message : Z → caller → W → res unit * W;
  voice_mail_voice_messaging_menu : Z → caller → W → res unit * W
}.

(** ** The monad of the engine: world state, trace and exceptions *)

Definition M (W A : Type) : Type := W → res A * W * list event.

Definition ret {W A} (a : A) : M W A := λ w, (Ret a, w, []).

Definition bind {W A B} (m : M W A) (k : A → M W B) : M W B :=
  λ w, match m w with
       | (Ret a, w1, t1) => let '(r, w2, t2) := k a w1 in (r, w2, t1 ++ t2)
       | (Raise e, w1, t1) => (Raise e, w1, t1)
       end.

Definition raise {W A} (e : exn) : M W A := λ w, (Raise e, w, []).

Definition emit {W} (e : event) : M W unit := λ w, (Ret tt, w, [e]).

(** A call of a collaborator, recorded as [e]. *)
Definition invoke {W A} (e : event) (f : W → res A * W) : M W A :=
  λ w, let '(r, w1) := f w in (r, w1, [e]).

(** [try: body  except C as e: handler e]. *)
Definition try_except {W A} (body : M W A) (C : exn_class) (handler : exn → M W A) : M W A :=
  λ w, match body w with
       | (Ret a, w1, t1) => (Ret a, w1, t1)
       | (Raise e, w1, t1) =>
           if isinstance e C
           then let '(r, w2, t2) := handler e w1 in (r, w2, t1 ++ t2)
           else (Raise e, w1, t1)
       end.

(** [try: body  finally: final]: [final] runs on every way out of [body];
    an exception of [final] replaces the outcome of [body]. *)
Definition try_finally {W A} (body : M W A) (final : M W unit) : M W A :=
  λ w, let '(r, w1, t1) := body w in
       match final w1 with
       | (Ret _, w2, t2) => (r, w2, t1 ++ t2)
       | (Raise e, w2, t2) => (Raise e, w2, t1 ++ t2)
       end.

(** The three parts of what a computation yields. *)
Definition result_of {W A} (o : res A * W * list event) : res A := o.1.1.
Definition world_of {W A} (o : res A * W * list event) : W := o.1.2.
Definition trace_of {W A} (o : res A * W * list event) : list event := o.2.

(** [emits P m]: whatever the world, [m] only produces events that
    satisfy [P]. *)
Definition emits {W A} (P : event → Prop) (m : M W A) : Prop :=
  ∀ w, Forall P (trace_of (m w)).

Declare Scope engine_scope.
Delimit Scope engine_scope with engine.
Notation "'let*' x ':=' m 'in' k" := (bind m (λ x, k))
  (at level 10, x pattern, m at level 100, k at level 200) : engine_scope.
Notation "m ';;' k" := (bind m (λ _, k))
  (at level 100, k at level 200, right associativity) : engine_scope.
Open Scope engine_scope.

Definition print {W} (s : string) : M W unit := emit (EPrint s).

(** [len(l) > 0]. *)
Definition nonempty {A} (l : list A) : bool := bool_decide (0 < Z.of_nat (length l)).

Section Engine.
Context {W : Type} {collaborators : Collaborators W}.

(** *** [CallAttendant.answer_call] *)

(** Lines 209-222: the body of the [try] of [answer_call]. *)
Definition answer_actions (actions : list string) (greeting : string)
    (call_no : Z) (caller : caller) : M W unit :=
  (* Play greeting *)
  (if bool_decide ("greeting" ∈ actions) then
     print ">> Playing greeting...";;
     invoke (EPlayAudio greeting) (modem_play_audio greeting)
   else ret tt);;
  (* Record message *)
  if bool_decide ("record_message" ∈ actions) then
    print ">> Recording message...";;
    invoke (ERecordMessage call_no caller) (voice_mail_record_message call_no caller)
  (* Enter voice mail menu *)
  else if bool_decide ("voice_mail" ∈ actions) then
    print ">> Starting voice mail...";;
    invoke (EVoiceMessagingMenu call_no caller)
      (voice_mail_voice_messaging_menu call_no caller)
  else ret tt.

Definition answer_call (actions : list string) (greeting : string)
    (call_no : Z) (caller : caller) : M W unit :=
  (* Go "off-hook" *)
  let* picked_up := invoke EPickUp modem_pick_up in
  if (picked_up : bool) then
    try_finally
      (try_except
         (answer_actions actions greeting call_no caller)
         RuntimeError
         (λ e, print ("** Error handling a blocked caller: " +:+ exn_str e)))
      (* Go "on-hook" *)
      (invoke EHangUp modem_hang_up)
  else ret tt.

(** Whether [pick_up()] returns [True] in the world [w]. *)
Definition acquired (w : W) : bool :=
  match modem_pick_up w with
  | (Ret true, _) => true
  | _ => false
  end.

(** Whether [answer_call] gets as far as line 215 in the world [w]: the
    channel is acquired, and the greeting, if there is one to play, is
    played without an exception. *)
Definition reaches_recording (actions : list string) (greeting : string) (w : W) : bool :=
  match modem_pick_up w with
  | (Ret true, w1) =>
      if bool_decide ("greeting" ∈ actions) then
        match modem_play_audio greeting w1 with
        | (Ret _, _) => true
        | (Raise _, _) => false
        end
      else true
  | _ => false
  end.

(** *** [CallAttendant.run]: one caller *)

(** [caller[key]]. *)
Definition subscript (caller : caller) (key : string) : M W pyval :=
  match caller !! key with
  | Some v => ret v
  | None => raise (mkExn KeyError key)
  end.

(** [v[start:stop]] for the constant, non-negative bounds of [run]; a
    [stop] of [None] is the open slice [v[start:]].  Only a string can be
    sliced. *)
Definition slice (v : pyval) (start : nat) (stop : option nat) : M W string :=
  match v with
  | PyStr s => ret (str_slice s start stop)
  | PyInt _ => raise (mkExn TypeError "'int' object is not subscriptable")
  | PyNone => raise (mkExn TypeError "'NoneType' object is not subscriptable")
  end.

(** The variables of the call screening (lines 129-133) once the three
    tests of lines 136-156 have run. *)
Record screening := mkScreening {
  caller_permitted : bool;
  caller_screened : bool;
  caller_blocked : bool;
  action : string;
  reason : string
}.

Definition screen_caller (screening_mode : list string) (caller : caller) : M W screening :=
  let caller_permitted := false in
  let caller_screened := false in
  let caller_blocked := false in
  let action := "" in
  let reason := "" in
  (* Check the whitelist *)
  let* (caller_permitted, action, reason) :=
    if bool_decide ("whitelist" ∈ screening_mode) then
      print "> Checking whitelist(s)";;
      let* (is_whitelisted, reason) :=
        invoke (EIsWhitelisted caller) (screener_is_whitelisted caller) in
      if (is_whitelisted : bool) then
        invoke EApprovedBlink approved_indicator_blink;;
        ret (true, "Permitted", reason)
      else ret (caller_permitted, action, reason)
    else ret (caller_permitted, action, reason) in
  (* Now check the blacklist if not preempted by whitelist *)
  let* (caller_blocked, action, reason) :=
    if negb caller_permitted && bool_decide ("blacklist" ∈ screening_mode) then
      print "> Checking blacklist(s)";;
      let* (is_blacklisted, reason) :=
        invoke (EIsBlacklisted caller) (screener_is_blacklisted caller) in
      if (is_blacklisted : bool) then
        invoke EBlockedBlink blocked_indicator_blink;;
        ret (true, "Blocked", reason)
      else ret (caller_blocked, action, reason)
    else ret (caller_blocked, action, reason) in
  let* (caller_screened, action) :=
    if negb caller_permitted && negb caller_blocked then
      invoke EApprovedBlink approved_indicator_blink;;
      ret (true, "Screened")
    else ret (caller_screened, action) in
  ret (mkScreening caller_permitted caller_screened caller_blocked action reason).


(** Lines 163-174: the data used to answer the call.  When no branch of
    the [if]/[elif] chain is taken the three variables stay unassigned
    ([None] here). *)
Definition gather (cfg : Config) (s : screening) : option namespace :=
  if caller_permitted s then Some (PERMITTED_ cfg)
  else if caller_screened s then Some (SCREENED_ cfg)
  else if caller_blocked s then Some (BLOCKED_ cfg)
  else None.

(** [ring_event.wait(7)]. *)
Definition ring_event_wait (timeout : Z) : M W bool :=
  invoke (ERingWait timeout)
    (λ w, let '(b, w1) := modem_ring_event_wait timeout w in (Ret b, w1)).

(** Lines 177-190: the loop [while ring_count < rings_before_answer], which
    yields [(ok_to_answer, ring_count)].  [todo] bounds the iterations
    left; [ring_loop_unfold] below shows that the bound [ring_loop] passes
    is never reached, so that the function is the [while] loop. *)
Fixpoint ring_loop_from (todo : nat) (rings_before_answer ring_count : Z) : M W (bool * Z) :=
  if bool_decide (ring_count < rings_before_answer) then
    match todo with
    | O => ret (true, ring_count)
    | S todo' =>
        let* ring := ring_event_wait 7 in
        if (ring : bool) then
          let ring_count := ring_count + 1 in
          print (" > > > Ring count: " +:+ pretty ring_count);;
          ring_loop_from todo' rings_before_answer ring_count
        else
          print " > > > Ringing stopped: Caller hung up or callee answered";;
          ret (false, ring_count)
    end
  else ret (true, ring_count).

Definition ring_loop (rings_before_answer ring_count : Z) : M W (bool * Z) :=
  ring_loop_from (Z.to_nat (rings_before_answer - ring_count)) rings_before_answer ring_count.

(** What [n] successive waits on the ring event return, from the world
    [w] on, and the world after them. *)
Fixpoint ring_signals (n : nat) (w : W) : list bool :=
  match n with
  | O => []
  | S n' => let '(ring, w1) := modem_ring_event_wait 7 w in ring :: ring_signals n' w1
  end.

Fixpoint after_waits (n : nat) (w : W) : W :=
  match n with
  | O => w
  | S n' => after_waits n' (modem_ring_event_wait 7 w).2
  end.

(** Lines 123-126: the number of the caller and the announcement of the
    call; it yields [phone_no]. *)
Definition incoming (caller : caller) : M W string :=
  let* number := subscript caller "NMBR" in
  let* n1 := slice number 0 (Some 3%nat) in
  let* n2 := slice number 3 (Some 6%nat) in
  let* n3 := slice number 6 None in
  let phone_no := n1 +:+ "-" +:+ n2 +:+ "-" +:+ n3 in
  print ("Incoming call from " +:+ phone_no);;
  ret phone_no.

(** Lines 158-190: the call is logged, the data used to answer it is
    gathered, and the rings are awaited; it yields that data, the number of
    the call in the log, and [ok_to_answer]. *)
Definition log_and_wait (cfg : Config) (caller : caller) (phone_no : string)
    (s : screening) : M W (namespace * Z * bool) :=
  (* Log every call to the database (and console) *)
  let* call_no :=
    invoke (ELogCaller caller (action s) (reason s))
      (logger_log_caller caller (action s) (reason s)) in
  print ("--> " +:+ phone_no +:+ " " +:+ action s +:+ ": " +:+ reason s);;
  (* Gather the data used to answer the call *)
  let* plan :=
    match gather cfg s with
    | Some plan => ret plan
    | None =>
        raise (mkExn UnboundLocalError
                 "local variable 'rings_before_answer' referenced before assignment")
    end in
  (* Wait for the callee to answer the phone, if configured to do so *)
  let* (ok_to_answer, _) := ring_loop (rings_before_answer plan) 1 in
  ret (plan, call_no, ok_to_answer).

(** Lines 123-190: the body of the [try] from the caller taken from the
    queue to the end of the ring wait. *)
Definition screen_and_wait (cfg : Config) (caller : caller) : M W (namespace * Z * bool) :=
  let* phone_no := incoming caller in
  let* s := screen_caller (SCREENING_MODE cfg) caller in
  log_and_wait cfg caller phone_no s.

(** Lines 192-194: answer the call! *)
Definition answer_if_ok (caller : caller) (plan : namespace) (call_no : Z)
    (ok_to_answer : bool) : M W unit :=
  if ok_to_answer && nonempty (actions plan) then
    answer_call (actions plan) (greeting_file plan) call_no caller
  else ret tt.

(** Lines 123-194: the whole body of the [try] after [queue.get()]. *)
Definition process_caller (cfg : Config) (caller : caller) : M W unit :=
  let* (plan, call_no, ok_to_answer) := screen_and_wait cfg caller in
  answer_if_ok caller plan call_no ok_to_answer.

(** *** [CallAttendant.run]: the loop *)

(** How [run] stops when the callers of [pending] are all that ever
    arrive: it returns a code, or it is blocked in [queue.get()]. *)
Inductive run_outcome :=
| Returned (code : Z)
| WaitingForCaller.

(** Lines 118-199: [while 1] over the callers the queue hands out, in
    order. *)
Fixpoint run_loop (cfg : Config) (pending : list caller) : M W run_outcome :=
  match pending with
  | [] => ret WaitingForCaller
  | caller :: pending' =>
      let* returned :=
        try_except
          (emit (EQueueGet caller);;
           process_caller cfg caller;;
           ret None)
          Exception
          (λ e, emit (EPPrintExn e);;
                print "** Error running callattendant. Exiting.";;
                ret (Some 1)) in
      match returned with
      | Some code => ret (Returned code)
      | None => run_loop cfg pending'
      end
  end.

(** The fields of a [CallAttendant] the engine reads. *)
Record CallAttendant := mkCallAttendant {
  config : Config;
  _caller_queue : list caller
}.

(** *** [CallAttendant.handle_caller] *)

(** The modem's callback; it runs on the modem's thread, so it yields its
    own output and the new state of the object. *)
Definition handle_caller (self : CallAttendant) (caller : caller) : list event * CallAttendant :=
  let out :=
    if DEBUG (config self)
    then [EPrint "Adding to caller queue:"; EPPrintCaller caller]
    else [] in
  (out, mkCallAttendant (config self) (_caller_queue self ++ [caller])).

Definition run (self : CallAttendant) : M W run_outcome :=
  invoke EHandleCalls modem_handle_calls;;
  run_loop (config self) (_caller_queue self).

End Engine.


(** ** Two concrete worlds *)

(** *** A scripted world

    Every collaborator answers as its script says.  The state of the world
    is the list of the outcomes of the waits on the ring event still to
    come; when it is used up the ringing has stopped, and a wait times
    out. *)
Record script := mkScript {
  on_is_whitelisted : caller → res (bool * string);
  on_is_blacklisted : caller → res (bool * string);
  on_log_caller : res Z;
  on_pick_up : res bool;
  on_play_audio : res unit;
  on_record_message : res unit;
  on_voice_messaging_menu : res unit;
  on_hang_up : res unit
}.

Definition scripted (sc : script) : Collaborators (list bool) := {|
  screener_is_whitelisted c w := (on_is_whitelisted sc c, w);
  screener_is_blacklisted c w := (on_is_blacklisted sc c, w);
  approved_indicator_blink w := (Ret tt, w);
  blocked_indicator_blink w := (Ret tt, w);
  logger_log_caller _ _ _ w := (on_log_caller sc, w);
  modem_handle_calls w := (Ret tt, w);
  modem_ring_event_wait _ w :=
    match w with
    | [] => (false, [])
    | ring :: w' => (ring, w')
    end;
  modem_pick_up w := (on_pick_up sc, w);
  modem_hang_up w := (on_hang_up sc, w);
  modem_play_audio _ w := (on_play_audio sc, w);
  voice_mail_record_message _ _ w := (on_record_message sc, w);
  voice_mail_voice_messaging_menu _ _ w := (on_voice_messaging_menu sc, w)
|}.

(** A script in which nothing fails and no list knows the caller. *)
Definition quiet : script := {|
  on_is_whitelisted _ := Ret (false, "");
  on_is_blacklisted _ := Ret (false, "");
  on_log_caller := Ret 1;
  on_pick_up := Ret true;
  on_play_audio := Ret tt;
  on_record_message := Ret tt;
  on_voice_messaging_menu := Ret tt;
  on_hang_up := Ret tt
|}.

(** *** The ring event as a [threading.Event]

    The flag of the event, and what the modem's thread does to it while the
    engine is blocked in a wait: one batch of [set()] and [clear()] calls
    for each wait that blocks.  [Event.wait(timeout)] returns [True] at once
    when the flag is set on entry; otherwise it blocks, and returns [True]
    if a [set()] arrives in time and [False] on timeout.  It never changes
    the flag itself. *)
Inductive hw_op :=
| HwSet
| HwClear.

Record ring_event := mkRingEvent {
  flag : bool;
  hw : list (list hw_op)
}.

Definition is_set (o : hw_op) : bool :=
  match o with HwSet => true | HwClear => false end.

Definition apply_op (flag : bool) (o : hw_op) : bool :=
  match o with HwSet => true | HwClear => false end.

Definition event_wait (ev : ring_event) : bool * ring_event :=
  if flag ev then (true, ev)
  else match hw ev with
       | [] => (false, ev)
       | ops :: later => (existsb is_set ops, mkRingEvent (foldl apply_op (flag ev) ops) later)
       end.

(** The pulses the modem's thread has still to raise. *)
Definition pulses_to_come (ev : ring_event) : nat :=
  length (filter (λ o, is_set o = true) (concat (hw ev))).

Definition ring_event_world : Collaborators ring_event := {|
  screener_is_whitelisted _ w := (Ret (false, ""), w);
  screener_is_blacklisted _ w := (Ret (false, ""), w);
  approved_indicator_blink w := (Ret tt, w);
  blocked_indicator_blink w := (Ret tt, w);
  logger_log_caller _ _ _ w := (Ret 1, w);
  modem_handle_calls w := (Ret tt, w);
  modem_ring_event_wait _ w := event_wait w;
  modem_pick_up w := (Ret true, w);
  modem_hang_up w := (Ret tt, w);
  modem_play_audio _ w := (Ret tt, w);
  voice_mail_record_message _ _ w := (Ret tt, w);
  voice_mail_voice_messaging_menu _ _ w := (Ret tt, w)
|}.

(** *** Callers, a configuration and scripts to run the engine on *)

Definition alice : caller := {[ "NMBR" := PyStr "5551234567"; "NAME" := PyStr "ALICE" ]}.
Definition bob : caller := {[ "NMBR" := PyStr "5559998888"; "NAME" := PyStr "BOB" ]}.
(** A caller dict without a number, and one whose number is not a string. *)
Definition anonymous : caller := {[ "NAME" := PyStr "O" ]}.
Definition numeric : caller := {[ "NMBR" := PyInt 5551234567 ]}.

Definition home : Config := {|
  DEBUG := false;
  SCREENING_MODE := ["whitelist"; "blacklist"];
  BLOCKED_ := mkNamespace ["greeting"] "blocked.wav" 0;
  SCREENED_ := mkNamespace ["greeting"; "record_message"] "screened.wav" 2;
  PERMITTED_ := mkNamespace [] "permitted.wav" 4
|}.

(** The whitelist lookup fails. *)
Definition lookup_fails : script := {|
  on_is_whitelisted _ := Raise (mkExn OSError "disk I/O error");
  on_is_blacklisted _ := Ret (false, "");
  on_log_caller := Ret 1;
  on_pick_up := Ret true;
  on_play_audio := Ret tt;
  on_record_message := Ret tt;
  on_voice_messaging_menu := Ret tt;
  on_hang_up := Ret tt
|}.




(** The caller is on both lists. *)
Definition on_both_lists : script := {|
  on_is_whitelisted _ := Ret (true, "friend");
  on_is_blacklisted _ := Ret (true, "spam");
  on_log_caller := Ret 1;
  on_pick_up := Ret true;
  on_play_audio := Ret tt;
  on_record_message := Ret tt;
  on_voice_messaging_menu := Ret tt;
  on_hang_up := Ret tt
|}.

(** The line is already off-hook: [pick_up()] returns [False]. *)
Definition line_busy : script := {|
  on_is_whitelisted _ := Ret (false, "");
  on_is_blacklisted _ := Ret (false, "");
  on_log_caller := Ret 1;
  on_pick_up := Ret false;
  on_play_audio := Ret tt;
  on_record_message := Ret tt;
  on_voice_messaging_menu := Ret tt;
  on_hang_up := Ret tt
|}.

(** A ring event on which the modem raises one pulse, with a [set()] that
    no [clear()] follows. *)
Definition one_pulse : ring_event := mkRingEvent false [[HwSet]].

(** A ring event that is still set from the ring that started the call,
    and on which the modem raises no pulse any more. *)
Definition still_set : ring_event := mkRingEvent true [].

(** The bytes after the first byte of a code point. *)
Fixpoint all_continuation (s : string) : bool :=
  match s with
  | EmptyString => true
  | String b s' => is_continuation b && all_continuation s'
  end.

(** What [code_points] yields: each code point is a byte followed by
    continuation bytes, and none but the first may start with a
    continuation byte. *)
Definition code_point (c : string) : Prop :=
  ∃ b tl, c = String b tl ∧ all_continuation tl = true.

Definition code_points_wf (cs : list string) : Prop :=
  match cs with
  | [] => True
  | c :: cs' =>
      code_point c ∧
      Forall (λ c', code_point c' ∧ starts_with_continuation c' = false) cs'
  end.

(** ** What can fail while a call is handled *)

Section Failures.
Context {W : Type} {collaborators : Collaborators W}.





End Failures.

(** ** More of the program: the queue's producer, the command line, [main] *)

Definition is_approved_blink (e : event) : bool :=
  match e with EApprovedBlink => true | _ => false end.
Definition is_blocked_blink (e : event) : bool :=
  match e with EBlockedBlink => true | _ => false end.

(** The callers a trace shows taken from the queue, in order. *)
Definition popped (t : list event) : list caller :=
  omap (λ e, match e with EQueueGet c => Some c | _ => None end) t.

(** What the answer of a call may use: the greeting of [plan], and the
    number [call_no] and the [caller] for a recording or the voice mail
    menu. *)
Definition answers_with (plan : namespace) (call_no : Z) (caller : caller) (e : event) : Prop :=
  match e with
  | EPlayAudio g => g = greeting_file plan
  | ERecordMessage n c | EVoiceMessagingMenu n c => n = call_no ∧ c = caller
  | _ => True
  end.

(** The modem's thread calls [handle_caller] once for each caller it
    detects; the output of the calls, and the object after them. *)
Definition handle_callers (self : CallAttendant) (callers : list caller) : list event * CallAttendant :=
  foldl (λ acc caller, let '(out, self') := handle_caller acc.2 caller in (acc.1 ++ out, self'))
        ([], self) callers.

(** [sys.exit(code)] raises [SystemExit]; the message kept is [str] of the
    exception, which is the code, and empty for [sys.exit()]. *)
Definition sys_exit {W A} (code : option Z) : M W A :=
  raise (mkExn SystemExit (from_option pretty "" code)).

(** The tab of the help text. *)
Definition tab : string := String (Ascii.ascii_of_nat 9) "".

Definition syntax : string := "Usage: python callattendant.py -c [FILE]".

(** What [get_args] prints for [-h]. *)
Definition help_text : list event :=
  [EPrint syntax;
   EPrint ("-c, --config=[FILE]" +:+ tab +:+ "load a python configuration file");
   EPrint ("-h, --help" +:+ tab +:+ tab +:+ "displays this help text")].

(** Is the option a request for help, is it the configuration file. *)
Definition is_help_opt (o : string * string) : bool := bool_decide (o.1 ∈ ["-h"; "--help"]).
Definition is_config_opt (o : string * string) : bool := bool_decide (o.1 ∈ ["-c"; "--config"]).

(** The argument of the last [-c] or [--config] among the options. *)
Definition last_config (opts : list (string * string)) : option string :=
  last (List.filter is_config_opt opts) ≫= λ o, Some o.2.

(** ["{}".format(config_file)]. *)
Definition format_optional (o : option string) : string := default "None" o.

Section CommandLine.
Context {W : Type}.

(** [getopt.getopt(args, shortopts, longopts)] of the standard library: the
    options it finds, as pairs of a name and an argument, and the arguments
    left over; [None] when it raises [GetoptError]. *)
Variable getopt :
  list string → string → list string → option (list (string * string) * list string).

(** Lines 283-290: the loop over the options, with [configfile] so far. *)
Fixpoint get_args_loop (opts : list (string * string)) (configfile : option string) : M W (option string) :=
  match opts with
  | [] => ret configfile
  | (opt, arg) :: opts' =>
      if bool_decide (opt ∈ ["-h"; "--help"]) then
        print syntax;;
        print ("-c, --config=[FILE]" +:+ tab +:+ "load a python configuration file");;
        print ("-h, --help" +:+ tab +:+ tab +:+ "displays this help text");;
        sys_exit None
      else if bool_decide (opt ∈ ["-c"; "--config"]) then
        get_args_loop opts' (Some arg)
      else get_args_loop opts' configfile
  end.

(** [get_args]: lines 269-291. *)
Definition get_args (argv : list string) : M W (option string) :=
  let configfile := None in
  match getopt (drop 1 argv) "hc:" ["help"; "config="] with
  | None =>
      print syntax;;
      sys_exit (Some 2)
  | Some (opts, args) => get_args_loop opts configfile
  end.

End CommandLine.

Section Main.
Context {W : Type} {collaborators : Collaborators W}.
Variable getopt :
  list string → string → list string → option (list (string * string) * list string).

(** What [main] calls and this file does not hold: the [Config] object
    [make_config] builds from the file system, its method [validate], and
    the construction of the collaborators in [CallAttendant.__init__]
    (lines 53-85).  Each is any computation. *)
Variable make_config : option string → M W Config.
Variable Config_validate : Config → M W bool.
Variable construct_collaborators : Config → M W unit.

(** [CallAttendant(config)]: the object keeps [config]; its queue is the
    callers the modem will hand to [handle_caller], in order. *)
Definition CallAttendant_new (config : Config) (arrivals : list caller) : M W CallAttendant :=
  construct_collaborators config;;
  ret (mkCallAttendant config arrivals).

(** [main]: lines 294-309.  The value of [app.run()] is dropped; [main]
    returns 0 after it, and does not return while [run] waits. *)
Definition main (argv : list string) (arrivals : list caller) : M W run_outcome :=
  (* Process command line arguments *)
  let* config_file := get_args getopt argv in
  (* Create the application-wide config dict *)
  let* config := make_config config_file in
  (* Ensure all specified files exist and that values are conformant *)
  let* valid := Config_validate config in
  if negb valid then
    print ("Configuration is invalid. Please check " +:+ format_optional config_file);;
    ret (Returned 1)
  else
    (* Create and start the application *)
    let* app := CallAttendant_new config arrivals in
    let* outcome := run app in
    match outcome with
    | Returned _ => ret (Returned 0)
    | WaitingForCaller => ret WaitingForCaller
    end.

End Main.

(** A [getopt] that finds the options of a table, for the runs below. *)
Definition getopt_table (table : list (list string * list (string * string)))
    (args : list string) (shortopts : string) (longopts : list string)
    : option (list (string * string) * list string) :=
  (λ opts, (opts, [])) <$> (list_to_map table : gmap (list string) (list (string * string))) !! args.

(** The blacklist knows the caller and the whitelist does not. *)
Definition known_spammer : script := {|
  on_is_whitelisted _ := Ret (false, "");
  on_is_blacklisted _ := Ret (true, "spam");
  on_log_caller := Ret 1;
  on_pick_up := Ret true;
  on_play_audio := Ret tt;
  on_record_message := Ret tt;
  on_voice_messaging_menu := Ret tt;
  on_hang_up := Ret tt
|}.

(** A command line that names a configuration file, and what [getopt]
    finds in it. *)
Definition command_line : list string := ["callattendant.py"; "-c"; "app.cfg"].
Definition getopt_command_line :=
  getopt_table [(["-c"; "app.cfg"], [("-c", "app.cfg")])].

(** * Properties *)

(** ** Traces *)

Lemma count_app p t1 t2 : count p (t1 ++ t2) = (count p t1 + count p t2)%nat.
Proof. induction t1 as [|e t1 IH]; simpl; [done|]. rewrite IH. lia. Qed.

Lemma count_zero_Forall p t : Forall (λ e, p e = false) t → count p t = 0%nat.
Proof. induction 1 as [|e t He _ IH]; simpl; [done|]. by rewrite He, IH. Qed.


(** ** The monad *)

Lemma result_of_triple {W A} (r : res A) (w : W) t : result_of (r, w, t) = r.
Proof. done. Qed.
Lemma world_of_triple {W A} (r : res A) (w : W) t : world_of (r, w, t) = w.
Proof. done. Qed.
Lemma trace_of_triple {W A} (r : res A) (w : W) t : trace_of (r, w, t) = t.
Proof. done. Qed.

(** Reads the parts of the outcomes that are known. *)
Ltac triples :=
  rewrite ?result_of_triple, ?world_of_triple, ?trace_of_triple in *.

Section Monad.
Context {W : Type}.

Lemma bind_Ret {A B} (m : M W A) (k : A → M W B) w a w1 t1 :
  m w = (Ret a, w1, t1) →
  bind m k w = let '(r, w2, t2) := k a w1 in (r, w2, t1 ++ t2).
Proof. intros Hm. unfold bind. by rewrite Hm. Qed.

Lemma bind_Raise {A B} (m : M W A) (k : A → M W B) w e w1 t1 :
  m w = (Raise e, w1, t1) → bind m k w = (Raise e, w1, t1).
Proof. intros Hm. unfold bind. by rewrite Hm. Qed.


Lemma bind_assoc {A B C} (m : M W A) (k : A → M W B) (h : B → M W C) w :
  bind (bind m k) h w = bind m (λ a, bind (k a) h) w.
Proof.
  unfold bind. destruct (m w) as [[[a|e] w1] t1]; [|done].
  destruct (k a w1) as [[[b|e] w2] t2]; [|done].
  destruct (h b w2) as [[r w3] t3]. by rewrite app_assoc.
Qed.

Lemma bind_ext {A B} (m : M W A) (k k' : A → M W B) w :
  (∀ a w1, k a w1 = k' a w1) → bind m k w = bind m k' w.
Proof.
  intros Hk. unfold bind. destruct (m w) as [[[a|e] w1] t1]; [|done]. by rewrite Hk.
Qed.

Lemma trace_bind {A B} (m : M W A) (k : A → M W B) w :
  trace_of (bind m k w)
    = trace_of (m w)
        ++ match result_of (m w) with
           | Ret a => trace_of (k a (world_of (m w)))
           | Raise _ => []
           end.
Proof.
  unfold bind, trace_of, result_of, world_of.
  destruct (m w) as [[[a|e] w1] t1]; simpl; [|by rewrite app_nil_r].
  by destruct (k a w1) as [[r w2] t2].
Qed.

Lemma emits_impl {A} (P Q : event → Prop) (m : M W A) :
  emits P m → (∀ e, P e → Q e) → emits Q m.
Proof. intros Hm HPQ w. eapply Forall_impl; [apply Hm|done]. Qed.

Lemma emits_ret {A} P (a : A) : emits (W:=W) P (ret a).
Proof. intros w. constructor. Qed.

Lemma emits_raise {A} P e : emits (W:=W) P (raise (A:=A) e).
Proof. intros w. constructor. Qed.

Lemma emits_emit P e : P e → emits (W:=W) P (emit e).
Proof. intros He w. by repeat constructor. Qed.

Lemma emits_print P s : P (EPrint s) → emits (W:=W) P (print s).
Proof. apply emits_emit. Qed.

Lemma emits_invoke {A} P e (f : W → res A * W) : P e → emits P (invoke e f).
Proof.
  intros He w. unfold invoke, trace_of. destruct (f w) as [r w1]. simpl.
  by repeat constructor.
Qed.

Lemma emits_bind {A B} P (m : M W A) (k : A → M W B) :
  emits P m → (∀ a, emits P (k a)) → emits P (bind m k).
Proof.
  intros Hm Hk w. specialize (Hm w). unfold bind, trace_of in *.
  destruct (m w) as [[[a|e] w1] t1]; simpl in *; [|done].
  specialize (Hk a w1). destruct (k a w1) as [[r w2] t2]; simpl in *.
  by apply Forall_app.
Qed.

Lemma emits_try_except {A} P (body : M W A) C handler :
  emits P body → (∀ e, emits P (handler e)) → emits P (try_except body C handler).
Proof.
  intros Hb Hh w. specialize (Hb w). unfold try_except, trace_of in *.
  destruct (body w) as [[[a|e] w1] t1]; simpl in *; [done|].
  destruct (isinstance e C); [|done].
  specialize (Hh e w1). destruct (handler e w1) as [[r w2] t2]; simpl in *.
  by apply Forall_app.
Qed.

Lemma emits_try_finally {A} P (body : M W A) final :
  emits P body → emits P final → emits P (try_finally body final).
Proof.
  intros Hb Hf w. specialize (Hb w). unfold try_finally, trace_of in *.
  destruct (body w) as [[r w1] t1]; simpl in *.
  specialize (Hf w1). destruct (final w1) as [[[u|e] w2] t2]; simpl in *;
    by apply Forall_app.
Qed.


Lemma emits_count {A} p (m : M W A) w :
  emits (λ e, p e = false) m → count p (trace_of (m w)) = 0%nat.
Proof. intros Hm. apply count_zero_Forall, Hm. Qed.

End Monad.

(** Follows the structure of a computation down to the events it emits,
    and leaves [leaf] to show that each of them is allowed. *)
Ltac emits_with leaf :=
  repeat match goal with
  | |- emits _ (bind _ _) => apply emits_bind; [|intros ?]
  | |- emits _ (try_except _ _ _) => apply emits_try_except; [|intros ?]
  | |- emits _ (try_finally _ _) => apply emits_try_finally
  | |- emits _ (if ?b then _ else _) => destruct b
  | |- emits _ (let '(_, _) := ?x in _) => destruct x
  | |- emits _ (match ?x with _ => _ end) => destruct x
  | |- emits _ (ret _) => apply emits_ret
  | |- emits _ (raise _) => apply emits_raise
  | |- emits _ (emit _) => apply emits_emit; leaf
  | |- emits _ (print _) => apply emits_print; leaf
  | |- emits _ (invoke _ _) => apply emits_invoke; leaf
  end.

(** ** [answer_call] *)

Section AnswerCall.
Context {W : Type} {collaborators : Collaborators W}.
Implicit Types (actions : list string) (greeting : string) (call_no : Z).
Implicit Types (caller : caller) (w : W).

(** The message [answer_call] prints for a [RuntimeError] it caught. *)
Local Abbreviation report e := (EPrint ("** Error handling a blocked caller: " +:+ exn_str e)).

Lemma answer_call_not_acquired actions greeting call_no caller w w1 :
  modem_pick_up w = (Ret false, w1) →
  answer_call actions greeting call_no caller w = (Ret tt, w1, [EPickUp]).
Proof. intros Hp. unfold answer_call, bind, invoke. by rewrite Hp. Qed.

Lemma answer_call_pick_up_raises actions greeting call_no caller w e w1 :
  modem_pick_up w = (Raise e, w1) →
  answer_call actions greeting call_no caller w = (Raise e, w1, [EPickUp]).
Proof. intros Hp. unfold answer_call, bind, invoke. by rewrite Hp. Qed.

(** Once the channel is acquired: the actions, the report of a
    [RuntimeError], and then [hang_up()] whatever happened. *)
Lemma answer_call_acquired actions greeting call_no caller w w1 r w2 t :
  modem_pick_up w = (Ret true, w1) →
  answer_actions actions greeting call_no caller w1 = (r, w2, t) →
  answer_call actions greeting call_no caller w =
    let caught := match r with Raise e => isinstance e RuntimeError | Ret _ => false end in
    let '(h, w3) := modem_hang_up w2 in
    (match h with
     | Raise e' => Raise e'
     | Ret _ => if caught then Ret tt else r
     end,
     w3,
     EPickUp :: t
       ++ match r with
          | Raise e => if isinstance e RuntimeError then [report e] else []
          | Ret _ => []
          end
       ++ [EHangUp]).
Proof.
  intros Hp Ha.
  unfold answer_call, bind, invoke, try_finally, try_except, print, emit.
  rewrite Hp, Ha. destruct r as [[]|e]; simpl.
  - destruct (modem_hang_up w2) as [[[]|e'] w3]; by simpl.
  - destruct (isinstance e RuntimeError); simpl;
      destruct (modem_hang_up w2) as [[[]|e'] w3]; simpl;
      by rewrite <- ?app_assoc.
Qed.

Lemma answer_actions_emits P actions greeting call_no caller :
  (∀ e, is_print e = true ∨ is_action e = true → P e) →
  emits P (answer_actions actions greeting call_no caller).
Proof.
  intros HP. unfold answer_actions.
  emits_with ltac:(apply HP; by (left + right)).
Qed.


Lemma answer_actions_count p actions greeting call_no caller w :
  (∀ e, is_print e = true ∨ is_action e = true → p e = false) →
  count p (trace_of (answer_actions actions greeting call_no caller w)) = 0%nat.
Proof. intros Hp. by apply emits_count, answer_actions_emits. Qed.

(** What [answer_actions] does with the two recording actions: the test of
    line 215 is reached when the greeting did not raise, and then exactly
    one branch of the [if]/[elif] is taken. *)
Lemma answer_actions_recordings actions greeting call_no caller w :
  let t := trace_of (answer_actions actions greeting call_no caller w) in
  let reached :=
    if bool_decide ("greeting" ∈ actions) then
      match modem_play_audio greeting w with
      | (Ret _, _) => true
      | (Raise _, _) => false
      end
    else true in
  count is_record_message t
    = (if reached && bool_decide ("record_message" ∈ actions) then 1 else 0)%nat ∧
  count is_voice_messaging_menu t
    = (if reached && negb (bool_decide ("record_message" ∈ actions))
          && bool_decide ("voice_mail" ∈ actions) then 1 else 0)%nat.
Proof.
  unfold answer_actions, bind, invoke, print, emit, ret, trace_of.
  destruct (bool_decide ("greeting" ∈ actions));
    destruct (bool_decide ("record_message" ∈ actions));
    destruct (bool_decide ("voice_mail" ∈ actions)); simpl;
    repeat case_match; simplify_eq; simpl; done.
Qed.

(** C2. Whenever [pick_up()] succeeds, [answer_call] calls [hang_up()]
    exactly once, as the last thing it does, whether the actions succeed,
    raise or are skipped; when [pick_up()] returns [False] or raises,
    [hang_up()] is not called and the call of [pick_up()] is all that
    happened. *)
Theorem answer_call_hang_up_once actions greeting call_no caller w :
  let t := trace_of (answer_call actions greeting call_no caller w) in
  count is_pick_up t = 1%nat ∧
  count is_hang_up t = (if acquired w then 1 else 0)%nat ∧
  last t = Some (if acquired w then EHangUp else EPickUp).
Proof.
  unfold acquired. destruct (modem_pick_up w) as [[[]|e] w1] eqn:Hp.
  - destruct (answer_actions actions greeting call_no caller w1) as [[r w2] t] eqn:Ha.
    rewrite (answer_call_acquired _ _ _ _ _ _ _ _ _ Hp Ha).
    pose proof (answer_actions_count is_pick_up actions greeting call_no caller w1) as Hpick.
    pose proof (answer_actions_count is_hang_up actions greeting call_no caller w1) as Hhang.
    rewrite Ha in Hpick, Hhang. unfold trace_of in *. simpl in Hpick, Hhang.
    destruct (modem_hang_up w2) as [h w3]. simpl.
    rewrite !count_app, Hpick, Hhang by (by intros [] [|]).
    split_and!.
    + by destruct r as [|e]; [|destruct (isinstance e RuntimeError)].
    + by destruct r as [|e]; [|destruct (isinstance e RuntimeError)].
    + rewrite app_comm_cons, app_assoc. apply last_snoc.
  - by rewrite (answer_call_not_acquired _ _ _ _ _ _ Hp).
  - by rewrite (answer_call_pick_up_raises _ _ _ _ _ _ _ Hp).
Qed.

(** C6. [record_message] and [voice_mail] are never both executed in one
    call of [answer_call]: the message is recorded exactly when line 215 is
    reached and "record_message" is in the actions, and the voice mail menu
    is entered exactly when line 215 is reached, "voice_mail" is in the
    actions and "record_message" is not. *)
Theorem record_message_excludes_voice_mail actions greeting call_no caller w :
  let t := trace_of (answer_call actions greeting call_no caller w) in
  let reached := reaches_recording actions greeting w in
  count is_record_message t
    = (if reached && bool_decide ("record_message" ∈ actions) then 1 else 0)%nat ∧
  count is_voice_messaging_menu t
    = (if reached && negb (bool_decide ("record_message" ∈ actions))
          && bool_decide ("voice_mail" ∈ actions) then 1 else 0)%nat ∧
  (count is_record_message t + count is_voice_messaging_menu t ≤ 1)%nat.
Proof.
  cut (let t := trace_of (answer_call actions greeting call_no caller w) in
       let reached := reaches_recording actions greeting w in
       count is_record_message t
         = (if reached && bool_decide ("record_message" ∈ actions) then 1 else 0)%nat ∧
       count is_voice_messaging_menu t
         = (if reached && negb (bool_decide ("record_message" ∈ actions))
               && bool_decide ("voice_mail" ∈ actions) then 1 else 0)%nat).
  { simpl. intros [-> ->]. split_and!; [done..|].
    destruct (reaches_recording actions greeting w);
      destruct (bool_decide ("record_message" ∈ actions));
      destruct (bool_decide ("voice_mail" ∈ actions)); simpl; lia. }
  unfold reaches_recording. destruct (modem_pick_up w) as [[[]|e] w1] eqn:Hp.
  - destruct (answer_actions actions greeting call_no caller w1) as [[r w2] t] eqn:Ha.
    rewrite (answer_call_acquired _ _ _ _ _ _ _ _ _ Hp Ha).
    pose proof (answer_actions_recordings actions greeting call_no caller w1) as Hrec.
    rewrite Ha in Hrec. unfold trace_of in *. simpl in Hrec.
    destruct Hrec as [Hrec Hmenu].
    destruct (modem_hang_up w2) as [h w3]. simpl.
    rewrite !count_app, Hrec, Hmenu.
    split; (destruct r as [|e]; [|destruct (isinstance e RuntimeError)]; simpl; lia).
  - rewrite (answer_call_not_acquired _ _ _ _ _ _ Hp). by simpl.
  - rewrite (answer_call_pick_up_raises _ _ _ _ _ _ _ Hp). by simpl.
Qed.

End AnswerCall.

(** ** The ring wait *)

Section RingWait.
Context {W : Type} {collaborators : Collaborators W}.
Implicit Types (N ring_count : Z) (w : W).

(** [ring_loop] is the [while] loop of lines 179-190. *)
Lemma ring_loop_unfold N ring_count :
  ring_loop N ring_count =
    if bool_decide (ring_count < N) then
      let* ring := ring_event_wait 7 in
      if (ring : bool) then
        print (" > > > Ring count: " +:+ pretty (ring_count + 1));;
        ring_loop N (ring_count + 1)
      else
        print " > > > Ringing stopped: Caller hung up or callee answered";;
        ret (false, ring_count)
    else ret (true, ring_count).
Proof.
  unfold ring_loop. case_bool_decide as Hlt.
  - replace (Z.to_nat (N - ring_count)) with (S (Z.to_nat (N - (ring_count + 1)))) by lia.
    simpl. by rewrite bool_decide_true.
  - destruct (Z.to_nat (N - ring_count)); simpl; by rewrite bool_decide_false.
Qed.

Lemma ring_signals_length n w : length (ring_signals n w) = n.
Proof.
  revert w. induction n as [|n IH]; intros w; simpl; [done|].
  destruct (modem_ring_event_wait 7 w) as [ring w1]. simpl. by rewrite IH.
Qed.

(** The loop in full: its result, the world it leaves and its trace, from
    the outcomes of the waits. *)
Lemma ring_loop_spec n N ring_count w :
  n = Z.to_nat (N - ring_count) →
  let signals := ring_signals n w in
  let ok := forallb id signals in
  let waits := if ok then rings_heard signals else S (rings_heard signals) in
  result_of (ring_loop N ring_count w) = Ret (ok, ring_count + Z.of_nat (rings_heard signals)) ∧
  world_of (ring_loop N ring_count w) = after_waits waits w ∧
  count is_ring_wait (trace_of (ring_loop N ring_count w)) = waits ∧
  Forall (λ e, e = ERingWait 7 ∨ is_print e = true) (trace_of (ring_loop N ring_count w)).
Proof.
  revert ring_count w. induction n as [|n IH]; intros ring_count w Hn;
    rewrite ring_loop_unfold.
  - rewrite bool_decide_false by lia. simpl.
    unfold result_of, world_of, trace_of. simpl.
    split_and!; [f_equal; f_equal; lia|done..].
  - rewrite bool_decide_true by lia.
    unfold bind, ring_event_wait, invoke, print, emit, ret. simpl.
    destruct (modem_ring_event_wait 7 w) as [[] w1] eqn:Hwait; simpl.
    + destruct (IH (ring_count + 1) w1 ltac:(lia)) as (Hr & Hw & Hc & Ht).
      unfold result_of, world_of, trace_of in *.
      destruct (ring_loop N (ring_count + 1) w1) as [[r w2] t]. simpl in *.
      subst r w2. split_and!.
      * f_equal. f_equal. lia.
      * destruct (forallb id (ring_signals n w1)); simpl; by rewrite Hwait.
      * rewrite Hc. by destruct (forallb id (ring_signals n w1)).
      * constructor; [by left|]. constructor; [by right|]. done.
    + unfold result_of, world_of, trace_of. simpl. rewrite Hwait.
      split_and!; [f_equal; f_equal; lia|done..|].
      constructor; [by left|]. constructor; [by right|]. constructor.
Qed.

(** C4, as the code has it. With [rings_before_answer <= 1] the ring wait
    says "ok to answer" at once, without a wait on the ring event.
    Otherwise it says "ok to answer" exactly when the
    [rings_before_answer - 1] waits on the ring event all return [True],
    and it stops at the first wait that times out: that wait is the last
    one it performs.  What a wait returns is all the loop knows of the
    ringing. *)
Theorem ring_wait_eligibility N w :
  let signals := ring_signals (Z.to_nat (N - 1)) w in
  let ok_to_answer := forallb id signals in
  length signals = Z.to_nat (N - 1) ∧
  result_of (ring_loop N 1 w) = Ret (ok_to_answer, 1 + Z.of_nat (rings_heard signals)) ∧
  count is_ring_wait (trace_of (ring_loop N 1 w))
    = (if ok_to_answer then rings_heard signals else S (rings_heard signals)) ∧
  (N ≤ 1 → ring_loop N 1 w = (Ret (true, 1), w, [])).
Proof.
  simpl. destruct (ring_loop_spec (Z.to_nat (N - 1)) N 1 w eq_refl) as (Hr & _ & Hc & _).
  split_and!; [apply ring_signals_length|done..|].
  intros HN. rewrite ring_loop_unfold. by rewrite bool_decide_false by lia.
Qed.

End RingWait.

(** *** The ring event as a [threading.Event] *)

Lemma event_wait_set ev : flag ev = true → event_wait ev = (true, ev).
Proof. intros Hf. unfold event_wait. by rewrite Hf. Qed.

Lemma ring_signals_set n ev :
  flag ev = true →
  ring_signals (collaborators:=ring_event_world) n ev = replicate n true ∧
  after_waits (collaborators:=ring_event_world) n ev = ev.
Proof.
  intros Hf. induction n as [|n [IH1 IH2]]; simpl; [done|].
  rewrite event_wait_set by done. simpl. by rewrite IH1, IH2.
Qed.

Lemma rings_heard_replicate n : rings_heard (replicate n true) = n.
Proof. induction n as [|n IH]; simpl; by rewrite ?IH. Qed.

Lemma forallb_replicate n : forallb id (replicate n true) = true.
Proof. by induction n. Qed.

(** C5, as the code has it. The ring wait never resets the ring event: all
    it does with the modem is wait on the event, with a timeout of 7, and
    the world it leaves is the one those waits leave.  The reset is left to
    whoever sets the event: when the event is a [threading.Event] whose
    flag is still set as a wait begins, that wait and all the later ones
    return at once, the rings are counted up to [rings_before_answer], and
    the event is left as it was. *)
Theorem ring_loop_only_waits :
  (∀ W (collaborators : Collaborators W) N ring_count (w : W),
     let t := trace_of (ring_loop N ring_count w) in
     Forall (λ e, e = ERingWait 7 ∨ is_print e = true) t ∧
     world_of (ring_loop N ring_count w) = after_waits (count is_ring_wait t) w) ∧
  (∀ N ev,
     flag ev = true →
     result_of (ring_loop (collaborators:=ring_event_world) N 1 ev) = Ret (true, Z.max N 1) ∧
     world_of (ring_loop (collaborators:=ring_event_world) N 1 ev) = ev).
Proof.
  split.
  - intros W collaborators N ring_count w. simpl.
    destruct (ring_loop_spec (Z.to_nat (N - ring_count)) N ring_count w eq_refl)
      as (_ & Hw & Hc & Ht).
    split; [done|]. by rewrite Hc.
  - intros N ev Hf.
    destruct (ring_loop_spec (collaborators:=ring_event_world) (Z.to_nat (N - 1)) N 1 ev eq_refl)
      as (Hr & Hw & _ & _).
    destruct (ring_signals_set (Z.to_nat (N - 1)) ev Hf) as [Hs _].
    rewrite Hs, forallb_replicate, rings_heard_replicate in *.
    split.
    + rewrite Hr. f_equal. f_equal. lia.
    + rewrite Hw. by apply ring_signals_set.
Qed.

(** ** The call screening *)

Section Screening.
Context {W : Type} {collaborators : Collaborators W}.
Implicit Types (screening_mode : list string) (caller : caller) (w : W).

(** Exactly one of the three flags is set. *)
Lemma screen_caller_one_category screening_mode caller w s w1 t :
  screen_caller screening_mode caller w = (Ret s, w1, t) →
  (caller_permitted s, caller_screened s, caller_blocked s) = (true, false, false) ∧ action s = "Permitted"
  ∨ (caller_permitted s, caller_screened s, caller_blocked s) = (false, true, false) ∧ action s = "Screened"
  ∨ (caller_permitted s, caller_screened s, caller_blocked s) = (false, false, true) ∧ action s = "Blocked".
Proof.
  unfold screen_caller, bind, invoke, print, emit, ret.
  repeat case_match; intros; simplify_eq; simpl in *; simplify_eq; eauto.
Qed.


Lemma screen_caller_emits screening_mode caller :
  emits (λ e, is_pick_up e = false ∧ is_log_caller e = false ∧ is_queue_get e = false)
    (screen_caller screening_mode caller).
Proof.
  unfold screen_caller. emits_with done.
Qed.

(** A match of the whitelist. *)
Lemma screen_caller_whitelisted screening_mode caller w reason w1 :
  "whitelist" ∈ screening_mode →
  screener_is_whitelisted caller w = (Ret (true, reason), w1) →
  screen_caller screening_mode caller w =
    let '(blinked, w2) := approved_indicator_blink w1 in
    (match blinked with
     | Ret _ => Ret (mkScreening true false false "Permitted" reason)
     | Raise e => Raise e
     end,
     w2,
     [EPrint "> Checking whitelist(s)"; EIsWhitelisted caller; EApprovedBlink]).
Proof.
  intros Hmode Hw. unfold screen_caller, bind, invoke, print, emit, ret.
  rewrite (bool_decide_true _ Hmode). simpl. rewrite Hw. simpl.
  by destruct (approved_indicator_blink w1) as [[[]|e] w2].
Qed.


End Screening.

(** ** One caller *)

Section ProcessCaller.
Context {W : Type} {collaborators : Collaborators W}.
Implicit Types (cfg : Config) (caller : caller) (w : W).

(** [phone_no], as line 125 formats it. *)
Local Abbreviation phone_no_of number :=
  (str_slice number 0 (Some 3%nat) +:+ "-"
   +:+ str_slice number 3 (Some 6%nat) +:+ "-"
   +:+ str_slice number 6 None).

Lemma incoming_str caller number w :
  caller !! "NMBR" = Some (PyStr number) →
  incoming caller w
    = (Ret (phone_no_of number), w, [EPrint ("Incoming call from " +:+ phone_no_of number)]).
Proof. intros Hn. unfold incoming, subscript, bind, print, emit, ret. by rewrite Hn. Qed.

Lemma incoming_no_key caller w :
  caller !! "NMBR" = None →
  incoming caller w = (Raise (mkExn KeyError "NMBR"), w, []).
Proof. intros Hn. unfold incoming, subscript, bind. by rewrite Hn. Qed.

Lemma incoming_not_str caller v w :
  caller !! "NMBR" = Some v →
  (∀ number, v ≠ PyStr number) →
  ∃ e, exn_cls e = TypeError ∧ incoming caller w = (Raise e, w, []).
Proof.
  intros Hn Hv. unfold incoming, subscript, bind. rewrite Hn.
  destruct v as [number| |]; [by destruct (Hv number)|..]; simpl;
    (eexists; split; [|reflexivity]; done).
Qed.

(** A call that raises before the screening has done nothing yet. *)
Lemma incoming_raise caller w e w1 t :
  incoming caller w = (Raise e, w1, t) → w1 = w ∧ t = [].
Proof.
  destruct (caller !! "NMBR") as [[number| |]|] eqn:Hn.
  - rewrite (incoming_str _ _ _ Hn). congruence.
  - destruct (incoming_not_str caller _ w Hn) as (e' & _ & ->); [done|]. by intros [= _ <- <-].
  - destruct (incoming_not_str caller _ w Hn) as (e' & _ & ->); [done|]. by intros [= _ <- <-].
  - rewrite (incoming_no_key _ _ Hn). by intros [= _ <- <-].
Qed.

Lemma incoming_ret caller w phone_no w1 t :
  incoming caller w = (Ret phone_no, w1, t) →
  (∃ number, caller !! "NMBR" = Some (PyStr number)) ∧ w1 = w ∧ t = [EPrint ("Incoming call from " +:+ phone_no)].
Proof.
  destruct (caller !! "NMBR") as [[number| |]|] eqn:Hn.
  - rewrite (incoming_str _ _ _ Hn). intros [= <- <- <-]. eauto.
  - by destruct (incoming_not_str caller _ w Hn) as (e' & _ & ->).
  - by destruct (incoming_not_str caller _ w Hn) as (e' & _ & ->).
  - by rewrite (incoming_no_key _ _ Hn).
Qed.

Lemma ring_loop_emits (P : event → Prop) N ring_count :
  P (ERingWait 7) → (∀ s, P (EPrint s)) → emits P (ring_loop N ring_count).
Proof.
  intros Hwait Hprint w.
  destruct (ring_loop_spec (Z.to_nat (N - ring_count)) N ring_count w eq_refl)
    as (_ & _ & _ & Ht).
  eapply Forall_impl; [exact Ht|]. intros e [->|He]; [done|].
  by destruct e.
Qed.

Lemma answer_call_emits (P : event → Prop) actions greeting call_no caller :
  P EPickUp → P EHangUp → (∀ e, is_print e = true ∨ is_action e = true → P e) →
  emits P (answer_call actions greeting call_no caller).
Proof.
  intros Hpick Hhang HP. unfold answer_call.
  apply emits_bind; [by apply emits_invoke|]. intros [|]; [|apply emits_ret].
  apply emits_try_finally; [|by apply emits_invoke].
  apply emits_try_except; [by apply answer_actions_emits|].
  intros e. apply emits_print, HP. by left.
Qed.

(** The events of a kind [p] that only the screening, or only the run
    loop, can produce do not occur from the logging on. *)
Lemma after_screening_emits (p : event → bool) cfg caller phone_no s :
  (∀ e, is_print e = true ∨ is_action e = true ∨ is_log_caller e = true
        ∨ is_ring_wait e = true ∨ is_pick_up e = true ∨ is_hang_up e = true →
        p e = false) →
  emits (λ e, p e = false)
    (let* (plan, call_no, ok_to_answer) := log_and_wait cfg caller phone_no s in
     answer_if_ok caller plan call_no ok_to_answer).
Proof.
  intros Hp. apply emits_bind.
  - unfold log_and_wait.
    apply emits_bind; [apply emits_invoke, Hp; tauto|]. intros call_no.
    apply emits_bind; [apply emits_print, Hp; tauto|]. intros _.
    apply emits_bind; [destruct (gather cfg s); [apply emits_ret|apply emits_raise]|].
    intros plan. apply emits_bind; [|intros []; apply emits_ret].
    apply ring_loop_emits; [|intros ?]; apply Hp; tauto.
  - intros [[plan call_no] ok]. unfold answer_if_ok.
    destruct (ok && nonempty (actions plan)); [|apply emits_ret].
    apply answer_call_emits; [apply Hp; tauto..|].
    intros e He. apply Hp. tauto.
Qed.

Lemma process_caller_unfold cfg caller w :
  process_caller cfg caller w =
    (let* phone_no := incoming caller in
     let* s := screen_caller (SCREENING_MODE cfg) caller in
     let* (plan, call_no, ok_to_answer) := log_and_wait cfg caller phone_no s in
     answer_if_ok caller plan call_no ok_to_answer) w.
Proof.
  unfold process_caller, screen_and_wait. rewrite bind_assoc.
  apply bind_ext. intros phone_no w1. apply bind_assoc.
Qed.

Lemma incoming_emits caller : emits (W:=W) (λ e, is_print e = true) (incoming caller).
Proof.
  intros w. destruct (incoming caller w) as [[[phone_no|e] w1] t] eqn:Hi.
  - apply incoming_ret in Hi as (_ & _ & ->). by repeat constructor.
  - apply incoming_raise in Hi as [_ ->]. constructor.
Qed.

(** From the logging on: the call of [log_caller] comes first, and it is
    the only one. *)
Lemma after_screening_trace cfg caller phone_no s w :
  ∃ rest,
    trace_of ((let* (plan, call_no, ok_to_answer) := log_and_wait cfg caller phone_no s in
               answer_if_ok caller plan call_no ok_to_answer) w)
      = ELogCaller caller (action s) (reason s) :: rest ∧
    count is_log_caller rest = 0%nat.
Proof.
  unfold log_and_wait. rewrite bind_assoc, trace_bind.
  unfold invoke at 1 2 3, trace_of at 1, result_of, world_of.
  destruct (logger_log_caller caller (action s) (reason s) w) as [[call_no|e] w1]; simpl;
    [|by eexists].
  eexists. split; [done|].
  apply (emits_count is_log_caller).
  apply emits_bind.
  - apply emits_bind; [by apply emits_print|]. intros _.
    apply emits_bind; [destruct (gather cfg s); [apply emits_ret|apply emits_raise]|].
    intros plan. apply emits_bind; [|intros []; apply emits_ret].
    by apply ring_loop_emits.
  - intros [[plan call_no'] ok]. unfold answer_if_ok.
    destruct (ok && nonempty (actions plan)); [|apply emits_ret].
    apply answer_call_emits; [done..|]. by intros [] [|].
Qed.

(** C3. When "whitelist" is among the screening modes and the whitelist
    check returns a match, the caller is Permitted, with the reason the
    check gave, and the blacklist check is not called at all while the call
    is processed: whether "blacklist" is enabled, and whatever the
    blacklist would have said. *)
Theorem whitelist_preempts_blacklist cfg caller w reason w1 :
  "whitelist" ∈ SCREENING_MODE cfg →
  screener_is_whitelisted caller w = (Ret (true, reason), w1) →
  screen_caller (SCREENING_MODE cfg) caller w
    = (let '(blinked, w2) := approved_indicator_blink w1 in
       (match blinked with
        | Ret _ => Ret (mkScreening true false false "Permitted" reason)
        | Raise e => Raise e
        end,
        w2,
        [EPrint "> Checking whitelist(s)"; EIsWhitelisted caller; EApprovedBlink])) ∧
  count is_is_blacklisted (trace_of (process_caller cfg caller w)) = 0%nat.
Proof.
  intros Hmode Hw. split; [by apply screen_caller_whitelisted|].
  rewrite process_caller_unfold, trace_bind, count_app.
  rewrite (count_zero_Forall is_is_blacklisted (trace_of (incoming caller w))); last first.
  { eapply Forall_impl; [apply incoming_emits|]. by intros []. }
  destruct (incoming caller w) as [[[phone_no|e] w'] t] eqn:Hi; [|done].
  apply incoming_ret in Hi as (_ & -> & _).
  unfold result_of, world_of. simpl.
  rewrite trace_bind, count_app, (screen_caller_whitelisted _ _ _ _ _ Hmode Hw).
  destruct (approved_indicator_blink w1) as [[[]|e] w2]; [|done].
  unfold result_of, world_of, trace_of at 1. simpl.
  apply (emits_count is_is_blacklisted), after_screening_emits.
  intros e He. destruct e; try reflexivity; simpl in He; intuition discriminate.
Qed.

(** While a call is processed, whatever comes before the call of
    [log_caller] holds neither a [pick_up()] nor another [log_caller], and
    a call that got through the screening is logged once. *)
Lemma call_logged_before_answer cfg caller w :
  let t := trace_of (process_caller cfg caller w) in
  (∃ pre post,
     t = pre ++ post ∧
     count is_pick_up pre = 0%nat ∧
     count is_log_caller pre = 0%nat ∧
     (post = [] ∨ ∃ action reason, head post = Some (ELogCaller caller action reason))) ∧
  (∀ number s w1 t1,
     caller !! "NMBR" = Some (PyStr number) →
     screen_caller (SCREENING_MODE cfg) caller w = (Ret s, w1, t1) →
     count is_log_caller t = 1%nat ∧
     ELogCaller caller (action s) (reason s) ∈ t).
Proof.
  simpl. rewrite process_caller_unfold, trace_bind.
  assert (count is_pick_up (trace_of (incoming caller w)) = 0%nat
          ∧ count is_log_caller (trace_of (incoming caller w)) = 0%nat) as [Hip Hil].
  { split; apply count_zero_Forall;
      (eapply Forall_impl; [apply incoming_emits|]); by intros []. }
  destruct (incoming caller w) as [[[phone_no|e] w'] t0] eqn:Hi;
    triples.
  - apply incoming_ret in Hi as (_ & -> & _).
    rewrite trace_bind.
    pose proof (screen_caller_emits (SCREENING_MODE cfg) caller w) as Hs.
    assert (count is_pick_up (trace_of (screen_caller (SCREENING_MODE cfg) caller w)) = 0%nat
            ∧ count is_log_caller (trace_of (screen_caller (SCREENING_MODE cfg) caller w)) = 0%nat)
      as [Hsp Hsl].
    { split; apply count_zero_Forall;
        (eapply Forall_impl; [exact Hs|]); by intros e (? & ? & ?). }
    destruct (screen_caller (SCREENING_MODE cfg) caller w) as [[[s|e] w1] ts] eqn:Hscreen;
      triples.
    + destruct (after_screening_trace cfg caller phone_no s w1) as (rest & -> & Hrest).
      split.
      * exists (t0 ++ ts), (ELogCaller caller (action s) (reason s) :: rest).
        rewrite !count_app, Hip, Hil, Hsp, Hsl, app_assoc. split_and!; eauto.
      * intros number s' w1' t1' _ [= <- <- <-].
        rewrite !count_app, Hil, Hsl. simpl. rewrite Hrest. split; [done|].
        rewrite !elem_of_app. right. right. left.
    + split.
      * exists (t0 ++ ts), []. rewrite !count_app, Hip, Hil, Hsp, Hsl, !app_nil_r. eauto.
      * intros; simplify_eq.
  - split.
    + exists t0, []. rewrite !app_nil_r. eauto.
    + intros number s w1 t1 Hn _. rewrite (incoming_str _ _ _ Hn) in Hi. simplify_eq.
Qed.

(** C7, as the code has it. While a call is processed, [log_caller] is
    called before any attempt to answer: whatever comes before its call
    holds neither a [pick_up()] nor another [log_caller].  A call is logged
    exactly when its number is a string and the screening returns, and then
    once, with the action and the reason the screening gave, whatever
    happens next: whether the rings arrive or not, whatever the actions
    are, and whether [pick_up()] succeeds, fails or raises.  A call whose
    number lookup or screening raises is not logged, and a call that is not
    logged is not answered. *)
Theorem call_logged_once_screened cfg caller w :
  let t := trace_of (process_caller cfg caller w) in
  (∃ pre post,
     t = pre ++ post ∧
     count is_pick_up pre = 0%nat ∧
     count is_log_caller pre = 0%nat ∧
     (post = [] ∨ ∃ action reason, head post = Some (ELogCaller caller action reason))) ∧
  count is_log_caller t
    = match caller !! "NMBR", result_of (screen_caller (SCREENING_MODE cfg) caller w) with
      | Some (PyStr _), Ret _ => 1%nat
      | _, _ => 0%nat
      end ∧
  (∀ number s w1 t1,
     caller !! "NMBR" = Some (PyStr number) →
     screen_caller (SCREENING_MODE cfg) caller w = (Ret s, w1, t1) →
     ELogCaller caller (action s) (reason s) ∈ t) ∧
  (count is_log_caller t = 0%nat → count is_pick_up t = 0%nat).
Proof.
  simpl. destruct (call_logged_before_answer cfg caller w) as [Horder Hlogged].
  simpl in Horder, Hlogged. split_and!.
  - exact Horder.
  - destruct (caller !! "NMBR") as [[number| |]|] eqn:Hn.
    + destruct (screen_caller (SCREENING_MODE cfg) caller w) as [[[s|e] w1] ts] eqn:Hs;
        triples.
      * by destruct (Hlogged number s w1 ts eq_refl eq_refl).
      * pose proof (screen_caller_emits (SCREENING_MODE cfg) caller w) as He.
        rewrite Hs in He. triples.
        rewrite process_caller_unfold, (bind_Ret _ _ _ _ _ _ (incoming_str _ _ w Hn)).
        rewrite (bind_Raise _ _ _ _ _ _ Hs). triples. simpl.
        apply count_zero_Forall. eapply Forall_impl; [exact He|]. by intros e' (? & ? & ?).
    + destruct (incoming_not_str caller _ w Hn) as (e & _ & Hi); [done|].
      rewrite process_caller_unfold. by rewrite (bind_Raise _ _ _ _ _ _ Hi).
    + destruct (incoming_not_str caller _ w Hn) as (e & _ & Hi); [done|].
      rewrite process_caller_unfold. by rewrite (bind_Raise _ _ _ _ _ _ Hi).
    + rewrite process_caller_unfold.
      by rewrite (bind_Raise _ _ _ _ _ _ (incoming_no_key _ w Hn)).
  - intros number s w1 t1 Hn Hs. by destruct (Hlogged number s w1 t1 Hn Hs).
  - destruct Horder as (pre & post & -> & Hpick & Hlog & Hpost).
    rewrite !count_app, Hpick, Hlog. simpl.
    destruct Hpost as [->|(action & reason & Hhead)]; [done|].
    destruct post as [|e post]; [done|]. simpl in Hhead. by simplify_eq.
Qed.

End ProcessCaller.

(** ** The run loop *)

Section Run.
Context {W : Type} {collaborators : Collaborators W}.
Implicit Types (cfg : Config) (caller : caller) (rest : list caller) (w : W).

(** What [run] prints before it returns 1. *)
Local Abbreviation exiting e :=
  [EPPrintExn e; EPrint "** Error running callattendant. Exiting."].

(** One turn of the [while 1] loop. *)
Lemma run_loop_step cfg caller rest w :
  run_loop cfg (caller :: rest) w =
    match process_caller cfg caller w with
    | (Ret _, w1, t) =>
        let '(r, w2, t2) := run_loop cfg rest w1 in (r, w2, EQueueGet caller :: t ++ t2)
    | (Raise e, w1, t) =>
        if isinstance e Exception
        then (Ret (Returned 1), w1, EQueueGet caller :: t ++ exiting e)
        else (Raise e, w1, EQueueGet caller :: t)
    end.
Proof.
  simpl. unfold bind, try_except, emit, print, ret.
  destruct (process_caller cfg caller w) as [[[[]|e] w1] t]; simpl.
  - destruct (run_loop cfg rest w1) as [[r w2] t2]. by rewrite app_nil_r.
  - destruct (isinstance e Exception); simpl; [|done]. by rewrite app_nil_r.
Qed.

Lemma process_caller_no_queue_get cfg caller w :
  count is_queue_get (trace_of (process_caller cfg caller w)) = 0%nat.
Proof.
  apply count_zero_Forall. rewrite process_caller_unfold.
  apply emits_bind.
  - eapply emits_impl; [apply incoming_emits|]. by intros [].
  - intros phone_no. apply emits_bind.
    + eapply emits_impl; [apply screen_caller_emits|]. by intros e (? & ? & ?).
    + intros s. apply (after_screening_emits is_queue_get).
      intros e He. destruct e; try reflexivity; simpl in He; intuition discriminate.
Qed.




(** C10. [handle_caller] puts whatever caller it is given at the end of the
    queue, without a look at it; [run] needs a string under "NMBR".  A
    caller without that key makes the handling raise [KeyError] before
    anything else is done: no screening, no logging, and the run loop ends
    with it.  A value under "NMBR" that is not a string makes it raise
    [TypeError] at the same place. *)
Theorem caller_without_number (self : CallAttendant) cfg caller rest w :
  (handle_caller self caller).2
    = mkCallAttendant (config self) (_caller_queue self ++ [caller]) ∧
  (caller !! "NMBR" = None →
     process_caller cfg caller w = (Raise (mkExn KeyError "NMBR"), w, []) ∧
     run_loop cfg (caller :: rest) w
       = (Ret (Returned 1), w, EQueueGet caller :: exiting (mkExn KeyError "NMBR"))) ∧
  (∀ v, caller !! "NMBR" = Some v → (∀ number, v ≠ PyStr number) →
     ∃ e, exn_cls e = TypeError ∧
          process_caller cfg caller w = (Raise e, w, []) ∧
          run_loop cfg (caller :: rest) w = (Ret (Returned 1), w, EQueueGet caller :: exiting e)).
Proof.
  split_and!; [done|..].
  - intros Hn.
    assert (process_caller cfg caller w = (Raise (mkExn KeyError "NMBR"), w, [])) as Hp.
    { rewrite process_caller_unfold. by rewrite (bind_Raise _ _ _ _ _ _ (incoming_no_key _ w Hn)). }
    split; [done|]. by rewrite run_loop_step, Hp.
  - intros v Hn Hv. destruct (incoming_not_str _ _ w Hn Hv) as (e & He & Hi).
    assert (process_caller cfg caller w = (Raise e, w, [])) as Hp.
    { rewrite process_caller_unfold. by rewrite (bind_Raise _ _ _ _ _ _ Hi). }
    exists e. split_and!; [done..|].
    rewrite run_loop_step, Hp. unfold isinstance. by rewrite He.
Qed.

End Run.

(** ** What ends the handling of a call *)

Section CallFailures.
Context {W : Type} {collaborators : Collaborators W}.
Implicit Types (cfg : Config) (caller : caller) (rest : list caller) (w : W) (e : exn).








End CallFailures.

(** ** The engine run on concrete calls *)





(** A caller on both lists is Permitted, and the blacklist is not asked. *)
Lemma whitelist_preempts_blacklist_witness :
  screen_caller (collaborators:=scripted on_both_lists) (SCREENING_MODE home) alice [true]
    = (Ret (mkScreening true false false "Permitted" "friend"), [true],
       [EPrint "> Checking whitelist(s)"; EIsWhitelisted alice; EApprovedBlink]) ∧
  count is_is_blacklisted
    (trace_of (process_caller (collaborators:=scripted on_both_lists) home alice [true])) = 0%nat.
Proof.
  apply (whitelist_preempts_blacklist (collaborators:=scripted on_both_lists)
           home alice [true] "friend" [true]).
  - apply (bool_decide_eq_true_1 ("whitelist" ∈ SCREENING_MODE home)).
    vm_compute. reflexivity.
  - vm_compute. reflexivity.
Defined.

(** C4 fails on the code: the ring event is still set when the ring wait
    begins and no ring signal arrives any more; each of the nine waits
    returns at once, and the ring wait says it is ok to answer after ten
    rings. *)
Lemma eligible_without_new_rings :
  ring_loop (collaborators:=ring_event_world) 10 1 still_set
    = (Ret (true, 10), still_set,
       [ERingWait 7; EPrint " > > > Ring count: 2";
        ERingWait 7; EPrint " > > > Ring count: 3";
        ERingWait 7; EPrint " > > > Ring count: 4";
        ERingWait 7; EPrint " > > > Ring count: 5";
        ERingWait 7; EPrint " > > > Ring count: 6";
        ERingWait 7; EPrint " > > > Ring count: 7";
        ERingWait 7; EPrint " > > > Ring count: 8";
        ERingWait 7; EPrint " > > > Ring count: 9";
        ERingWait 7; EPrint " > > > Ring count: 10"]) ∧
  pulses_to_come still_set = 0%nat.
Proof. split; vm_compute; reflexivity. Qed.

(** With one ring required, no wait; with three rings required and a
    second wait that times out, two waits and no answer. *)
Lemma ring_wait_eligibility_witness :
  ring_loop (collaborators:=scripted quiet) 1 1 [false] = (Ret (true, 1), [false], []) ∧
  (length (ring_signals (collaborators:=scripted quiet) (Z.to_nat (3 - 1)) [true; false])
     = Z.to_nat (3 - 1) ∧
   result_of (ring_loop (collaborators:=scripted quiet) 3 1 [true; false])
     = Ret (false, 1 + Z.of_nat 1) ∧
   count is_ring_wait
     (trace_of (ring_loop (collaborators:=scripted quiet) 3 1 [true; false])) = 2%nat).
Proof.
  split.
  - destruct (ring_wait_eligibility (collaborators:=scripted quiet) 1 [false])
      as (_ & _ & _ & H).
    apply H. lia.
  - destruct (ring_wait_eligibility (collaborators:=scripted quiet) 3 [true; false])
      as (H1 & H2 & H3 & _).
    split_and!; [exact H1|exact H2|exact H3].
Defined.

(** C5 fails on the code: the modem raises one pulse and leaves the event
    set; the ring wait, which does not reset it, counts that pulse three
    times and says it is ok to answer after four rings.  The event is still
    set when the second wait begins. *)
Lemma one_pulse_counted_thrice :
  ring_loop (collaborators:=ring_event_world) 4 1 one_pulse
    = (Ret (true, 4), mkRingEvent true [],
       [ERingWait 7; EPrint " > > > Ring count: 2";
        ERingWait 7; EPrint " > > > Ring count: 3";
        ERingWait 7; EPrint " > > > Ring count: 4"]) ∧
  pulses_to_come one_pulse = 1%nat ∧
  flag (after_waits (collaborators:=ring_event_world) 1 one_pulse) = true.
Proof. split_and!; vm_compute; reflexivity. Qed.

Lemma ring_loop_only_waits_witness :
  result_of (ring_loop (collaborators:=ring_event_world) 3 1 (mkRingEvent true []))
    = Ret (true, Z.max 3 1) ∧
  world_of (ring_loop (collaborators:=ring_event_world) 3 1 (mkRingEvent true []))
    = mkRingEvent true [].
Proof.
  destruct ring_loop_only_waits as [_ H].
  apply (H 3 (mkRingEvent true [])). reflexivity.
Defined.

(** C7 fails on the code: the whitelist lookup raises; the call was taken
    up and the whitelist asked, and [log_caller] is never called. *)
Lemma failed_screening_not_logged :
  process_caller (collaborators:=scripted lookup_fails) home alice []
    = (Raise (mkExn OSError "disk I/O error"), [],
       [EPrint "Incoming call from 555-123-4567";
        EPrint "> Checking whitelist(s)"; EIsWhitelisted alice]) ∧
  count is_log_caller
    (trace_of (process_caller (collaborators:=scripted lookup_fails) home alice [])) = 0%nat.
Proof. split; vm_compute; reflexivity. Qed.

(** The line is busy: the call is logged all the same.  A call without a
    number is neither logged nor answered. *)
Lemma call_logged_once_screened_witness :
  ELogCaller alice "Screened" ""
    ∈ trace_of (process_caller (collaborators:=scripted line_busy) home alice [true]) ∧
  count is_pick_up
    (trace_of (process_caller (collaborators:=scripted quiet) home anonymous [true])) = 0%nat.
Proof.
  split.
  - destruct (call_logged_once_screened (collaborators:=scripted line_busy)
                home alice [true]) as (_ & _ & H & _).
    apply (H "5551234567" (mkScreening false true false "Screened" "") [true]
             [EPrint "> Checking whitelist(s)"; EIsWhitelisted alice;
              EPrint "> Checking blacklist(s)"; EIsBlacklisted alice;
              EApprovedBlink]);
      vm_compute; reflexivity.
  - destruct (call_logged_once_screened (collaborators:=scripted quiet)
                home anonymous [true]) as (_ & _ & _ & H).
    apply H. vm_compute. reflexivity.
Defined.



(** A caller without "NMBR", and one whose "NMBR" is an int. *)
Lemma caller_without_number_witness :
  (process_caller (collaborators:=scripted quiet) home anonymous []
     = (Raise (mkExn KeyError "NMBR"), [], []) ∧
   run_loop (collaborators:=scripted quiet) home [anonymous; alice] []
     = (Ret (Returned 1), [],
        [EQueueGet anonymous; EPPrintExn (mkExn KeyError "NMBR");
         EPrint "** Error running callattendant. Exiting."])) ∧
  (∃ e, exn_cls e = TypeError ∧
        process_caller (collaborators:=scripted quiet) home numeric [] = (Raise e, [], []) ∧
        run_loop (collaborators:=scripted quiet) home [numeric; alice] []
          = (Ret (Returned 1), [],
             [EQueueGet numeric; EPPrintExn e;
              EPrint "** Error running callattendant. Exiting."])).
Proof.
  split.
  - destruct (caller_without_number (collaborators:=scripted quiet)
                (mkCallAttendant home []) home anonymous [alice] []) as (_ & H & _).
    apply H. vm_compute. reflexivity.
  - destruct (caller_without_number (collaborators:=scripted quiet)
                (mkCallAttendant home []) home numeric [alice] []) as (_ & _ & H).
    apply (H (PyInt 5551234567)); [vm_compute; reflexivity|discriminate].
Defined.

(** The scenarios of a call that goes well: a screened caller whose second
    ring arrives hears the greeting and leaves a message; when the ringing
    stops first, the call is logged and not answered. *)
Example screened_call_recorded :
  run (collaborators:=scripted quiet) (mkCallAttendant home [alice]) [true]
    = (Ret WaitingForCaller, [],
       [EHandleCalls; EQueueGet alice;
        EPrint "Incoming call from 555-123-4567";
        EPrint "> Checking whitelist(s)"; EIsWhitelisted alice;
        EPrint "> Checking blacklist(s)"; EIsBlacklisted alice;
        EApprovedBlink;
        ELogCaller alice "Screened" "";
        EPrint "--> 555-123-4567 Screened: ";
        ERingWait 7; EPrint " > > > Ring count: 2";
        EPickUp; EPrint ">> Playing greeting..."; EPlayAudio "screened.wav";
        EPrint ">> Recording message..."; ERecordMessage 1 alice;
        EHangUp]).
Proof. vm_compute. reflexivity. Qed.

Example ringing_stopped_not_answered :
  run (collaborators:=scripted quiet) (mkCallAttendant home [alice]) []
    = (Ret WaitingForCaller, [],
       [EHandleCalls; EQueueGet alice;
        EPrint "Incoming call from 555-123-4567";
        EPrint "> Checking whitelist(s)"; EIsWhitelisted alice;
        EPrint "> Checking blacklist(s)"; EIsBlacklisted alice;
        EApprovedBlink;
        ELogCaller alice "Screened" "";
        EPrint "--> 555-123-4567 Screened: ";
        ERingWait 7;
        EPrint " > > > Ringing stopped: Caller hung up or callee answered"]).
Proof. vm_compute. reflexivity. Qed.

(** [handle_caller] keeps the order of arrival. *)
Example handle_caller_fifo :
  _caller_queue
    (handle_caller (handle_caller (mkCallAttendant home []) alice).2 anonymous).2
    = [alice; anonymous].
Proof. reflexivity. Qed.

(** * More of the engine *)

(** ** The queue and the run loop *)

Lemma popped_app t1 t2 : popped (t1 ++ t2) = popped t1 ++ popped t2.
Proof. apply omap_app. Qed.

Lemma popped_nil t : count is_queue_get t = 0%nat → popped t = [].
Proof.
  induction t as [|e t IH]; [done|]. destruct e; simpl; try done; by apply IH.
Qed.

Lemma handle_callers_from (acc : list event * CallAttendant) callers :
  foldl (λ acc caller, let '(out, self') := handle_caller acc.2 caller in (acc.1 ++ out, self'))
        acc callers
    = (acc.1 ++ (if DEBUG (config acc.2)
                 then callers ≫= (λ c, [EPrint "Adding to caller queue:"; EPPrintCaller c])
                 else []),
       mkCallAttendant (config acc.2) (_caller_queue acc.2 ++ callers)).
Proof.
  revert acc. induction callers as [|c callers IH]; intros [out [cfg queue]]; simpl.
  - destruct (DEBUG cfg); by rewrite !app_nil_r.
  - etrans; [apply (IH (_, _))|]. simpl.
    destruct (DEBUG cfg); by rewrite <- !app_assoc.
Qed.

(** X1. The callers the modem hands to [handle_caller] are queued in the
    order of the calls, behind those already there; the configuration is
    not touched; and each call prints its two lines when DEBUG is set and
    nothing otherwise. *)
Theorem handle_callers_fifo (self : CallAttendant) callers :
  (handle_callers self callers).2
    = mkCallAttendant (config self) (_caller_queue self ++ callers) ∧
  (handle_callers self callers).1
    = (if DEBUG (config self)
       then callers ≫= (λ c, [EPrint "Adding to caller queue:"; EPPrintCaller c])
       else []).
Proof. unfold handle_callers. by rewrite handle_callers_from. Qed.

Section RunLoop.
Context {W : Type} {collaborators : Collaborators W}.
Implicit Types (cfg : Config) (caller : caller) (pending : list caller) (w : W).

(** X2. The run loop handles the callers one after the other: over a queue
    [first ++ later] it does what it does over [first] and then, when that
    ends waiting for a caller, what it does over [later] from the world it
    is in by then.  When it returns or raises over [first], the callers of
    [later] change nothing. *)
Theorem run_loop_app cfg first later w :
  run_loop cfg (first ++ later) w =
    match run_loop cfg first w with
    | (Ret WaitingForCaller, w1, t1) =>
        let '(r, w2, t2) := run_loop cfg later w1 in (r, w2, t1 ++ t2)
    | stopped => stopped
    end.
Proof.
  revert w. induction first as [|caller first IH]; intros w.
  - simpl. unfold ret. by destruct (run_loop cfg later w) as [[r w2] t2].
  - rewrite <- app_comm_cons, !run_loop_step.
    destruct (process_caller cfg caller w) as [[[[]|e] w1] t]; [|by destruct (isinstance _ _)].
    rewrite IH. destruct (run_loop cfg first w1) as [[[[code|]|e] w2] t2]; [done| |done].
    destruct (run_loop cfg later w2) as [[r w3] t3]. by rewrite app_comm_cons, app_assoc.
Qed.

Lemma process_caller_popped cfg caller w :
  popped (trace_of (process_caller cfg caller w)) = [].
Proof. apply popped_nil, process_caller_no_queue_get. Qed.

(** X3. The callers are taken from the queue in the order they are in: the
    callers the run loop has popped are always a prefix of the queue, and
    they are the whole queue when the loop ends waiting for the next
    caller. *)
Theorem callers_popped_in_order cfg pending w :
  popped (trace_of (run_loop cfg pending w)) `prefix_of` pending ∧
  (result_of (run_loop cfg pending w) = Ret WaitingForCaller →
   popped (trace_of (run_loop cfg pending w)) = pending).
Proof.
  revert w. induction pending as [|caller pending IH]; intros w; [by split|].
  rewrite run_loop_step.
  pose proof (process_caller_popped cfg caller w) as Hp.
  destruct (process_caller cfg caller w) as [[[[]|e] w1] t]; triples.
  - destruct (IH w1) as [Hpre Hall].
    destruct (run_loop cfg pending w1) as [[r w2] t2]; triples.
    change (EQueueGet caller :: t ++ t2) with ([EQueueGet caller] ++ t ++ t2).
    rewrite !popped_app, Hp. simpl. split.
    + by apply prefix_cons.
    + intros Hr. by rewrite Hall.
  - destruct (isinstance e Exception); triples.
    + change (EQueueGet caller :: t ++ ?u) with ([EQueueGet caller] ++ t ++ u).
      rewrite !popped_app, Hp. simpl. split; [|done].
      apply prefix_cons, prefix_nil.
    + change (EQueueGet caller :: t) with ([EQueueGet caller] ++ t).
      rewrite !popped_app, Hp. simpl. split; [|done].
      apply prefix_cons, prefix_nil.
Qed.

Lemma run_loop_outcomes cfg pending w :
  match result_of (run_loop cfg pending w) with
  | Ret (Returned code) => code = 1
  | Ret WaitingForCaller => True
  | Raise e => isinstance e Exception = false
  end.
Proof.
  revert w. induction pending as [|caller pending IH]; intros w; [done|].
  rewrite run_loop_step.
  destruct (process_caller cfg caller w) as [[[[]|e] w1] t].
  - specialize (IH w1). by destruct (run_loop cfg pending w1) as [[r w2] t2].
  - by destruct (isinstance e Exception) eqn:He.
Qed.

(** X4. [run] returns no other value than 1.  An exception leaves [run]
    only when [modem.handle_calls()] raised it, before the loop, or when it
    is not an [Exception] (a [KeyboardInterrupt], a [SystemExit]): no
    [Exception] raised while a call is handled gets out. *)
Theorem run_outcomes (self : CallAttendant) w :
  match result_of (run self w) with
  | Ret (Returned code) => code = 1
  | Ret WaitingForCaller => True
  | Raise e => (modem_handle_calls w).1 = Raise e ∨ isinstance e Exception = false
  end.
Proof.
  unfold run, bind, invoke.
  destruct (modem_handle_calls w) as [[[]|e] w1]; simpl; [|by left].
  pose proof (run_loop_outcomes (config self) (_caller_queue self) w1) as H.
  destruct (run_loop (config self) (_caller_queue self) w1) as [[[[code|]|e] w2] t2];
    triples; simpl; auto.
Qed.

End RunLoop.

(** ** More of the call screening *)

Section MoreScreening.
Context {W : Type} {collaborators : Collaborators W}.
Implicit Types (cfg : Config) (caller : caller) (w : W).

Lemma count_zero_inv p t : count p t = 0%nat → Forall (λ e, p e = false) t.
Proof.
  induction t as [|e t IH]; simpl; [constructor|].
  destruct (p e) eqn:He; [done|]. intros Ht. constructor; [done|by apply IH].
Qed.

(** X5. A caller the blacklist knows, and the whitelist does not when it is
    asked first, is Blocked with the reason the blacklist check gave: the
    blocked indicator blinks, the call is answered with the data of
    BLOCKED_, and it is logged as "Blocked" with that reason. *)
Theorem blacklist_blocks cfg caller w w0 r0 reason w1 w2 :
  "blacklist" ∈ SCREENING_MODE cfg →
  (if bool_decide ("whitelist" ∈ SCREENING_MODE cfg)
   then screener_is_whitelisted caller w = (Ret (false, r0), w0)
   else w0 = w) →
  screener_is_blacklisted caller w0 = (Ret (true, reason), w1) →
  blocked_indicator_blink w1 = (Ret tt, w2) →
  let blocked := mkScreening false false true "Blocked" reason in
  screen_caller (SCREENING_MODE cfg) caller w
    = (Ret blocked, w2,
       (if bool_decide ("whitelist" ∈ SCREENING_MODE cfg)
        then [EPrint "> Checking whitelist(s)"; EIsWhitelisted caller]
        else [])
       ++ [EPrint "> Checking blacklist(s)"; EIsBlacklisted caller; EBlockedBlink]) ∧
  gather cfg blocked = Some (BLOCKED_ cfg) ∧
  (∀ number, caller !! "NMBR" = Some (PyStr number) →
     ELogCaller caller "Blocked" reason ∈ trace_of (process_caller cfg caller w)).
Proof.
  intros Hbl Hwl Hb Hblink. simpl.
  assert (screen_caller (SCREENING_MODE cfg) caller w
    = (Ret (mkScreening false false true "Blocked" reason), w2,
       (if bool_decide ("whitelist" ∈ SCREENING_MODE cfg)
        then [EPrint "> Checking whitelist(s)"; EIsWhitelisted caller]
        else [])
       ++ [EPrint "> Checking blacklist(s)"; EIsBlacklisted caller; EBlockedBlink])) as Hs.
  { unfold screen_caller, bind, invoke, print, emit, ret.
    rewrite (bool_decide_true _ Hbl).
    destruct (bool_decide ("whitelist" ∈ SCREENING_MODE cfg)); simpl.
    - rewrite Hwl. simpl. rewrite Hb. simpl. by rewrite Hblink.
    - subst w0. rewrite Hb. simpl. by rewrite Hblink. }
  split_and!; [done..|].
  intros number Hn.
  rewrite process_caller_unfold, trace_bind, (incoming_str _ _ _ Hn). triples.
  rewrite trace_bind, Hs. triples.
  destruct (after_screening_trace cfg caller
              (str_slice number 0 (Some 3%nat) +:+ "-"
               +:+ str_slice number 3 (Some 6%nat) +:+ "-"
               +:+ str_slice number 6 None)
              (mkScreening false false true "Blocked" reason) w2) as (rest & -> & _).
  rewrite !elem_of_app. right. right. simpl. left.
Qed.

(** X6. The data used to answer a call is always that of the category the
    screening gave, the one the call is logged with: PERMITTED_ for
    "Permitted", SCREENED_ for "Screened", BLOCKED_ for "Blocked".  The
    [if]/[elif] chain of lines 163-174 never falls through. *)
Theorem plan_follows_category cfg screening_mode caller w s w1 t :
  screen_caller screening_mode caller w = (Ret s, w1, t) →
  (action s = "Permitted" ∧ gather cfg s = Some (PERMITTED_ cfg))
  ∨ (action s = "Screened" ∧ gather cfg s = Some (SCREENED_ cfg))
  ∨ (action s = "Blocked" ∧ gather cfg s = Some (BLOCKED_ cfg)).
Proof.
  intros Hs. unfold gather.
  destruct (screen_caller_one_category _ _ _ _ _ _ Hs) as [[Hf ->]|[[Hf ->]|[Hf ->]]];
    injection Hf as H1 H2 H3; rewrite H1, ?H2, ?H3; simpl; auto.
Qed.

(** X7. What the screening of one call asks and signals: the whitelist is
    consulted once when "whitelist" is enabled and not otherwise; the
    blacklist is consulted once when "blacklist" is enabled and the caller
    was not permitted, and not otherwise; and exactly one indicator blinks,
    the blocked one for a blocked caller and the approved one for a
    permitted or a screened caller. *)
Theorem screening_calls screening_mode caller w s w1 t :
  screen_caller screening_mode caller w = (Ret s, w1, t) →
  count is_is_whitelisted t
    = (if bool_decide ("whitelist" ∈ screening_mode) then 1 else 0)%nat ∧
  count is_is_blacklisted t
    = (if negb (caller_permitted s) && bool_decide ("blacklist" ∈ screening_mode)
       then 1 else 0)%nat ∧
  count is_approved_blink t = (if caller_blocked s then 0 else 1)%nat ∧
  count is_blocked_blink t = (if caller_blocked s then 1 else 0)%nat.
Proof.
  unfold screen_caller, bind, invoke, print, emit, ret.
  destruct (bool_decide ("whitelist" ∈ screening_mode));
    destruct (bool_decide ("blacklist" ∈ screening_mode)); simpl;
    repeat (case_match; simplify_eq; simpl);
    intros; simplify_eq; simpl in *; simplify_eq; done.
Qed.

(** X8. While a call is handled, [log_caller] is only called for the caller
    at hand, and with one of the three categories as the action: a call is
    never logged with the empty action the variables start with. *)
Theorem logged_action_is_category cfg caller w :
  Forall (λ e, match e with
               | ELogCaller c action _ =>
                   c = caller ∧ action ∈ ["Permitted"; "Screened"; "Blocked"]
               | _ => True
               end)
    (trace_of (process_caller cfg caller w)).
Proof.
  rewrite process_caller_unfold, trace_bind. apply Forall_app. split.
  { eapply Forall_impl; [apply incoming_emits|]. by intros []. }
  destruct (incoming caller w) as [[[phone_no|e] w'] t0]; triples; [|constructor].
  rewrite trace_bind. apply Forall_app. split.
  { eapply Forall_impl; [apply screen_caller_emits|]. by intros [] (? & ? & ?). }
  destruct (screen_caller (SCREENING_MODE cfg) caller w') as [[[s|e] w1] ts] eqn:Hs;
    triples; [|constructor].
  destruct (after_screening_trace cfg caller phone_no s w1) as (rest & -> & Hrest).
  constructor.
  - split; [done|].
    destruct (screen_caller_one_category _ _ _ _ _ _ Hs) as [[_ ->]|[[_ ->]|[_ ->]]];
      set_solver.
  - eapply Forall_impl; [apply count_zero_inv, Hrest|]. by intros [].
Qed.

End MoreScreening.

(** ** More of the answering of a call *)

Section MoreAnswering.
Context {W : Type} {collaborators : Collaborators W}.
Implicit Types (cfg : Config) (caller : caller) (w : W) (actions : list string).

Lemma bind_Ret_inv {A B} (m : M W A) (k : A → M W B) w b w2 t :
  bind m k w = (Ret b, w2, t) →
  ∃ a w1 t1 t2, m w = (Ret a, w1, t1) ∧ k a w1 = (Ret b, w2, t2) ∧ t = t1 ++ t2.
Proof.
  unfold bind. destruct (m w) as [[[a|e] w1] t1]; [|done].
  destruct (k a w1) as [[r w3] t3] eqn:Hk. intros; simplify_eq.
  by eexists _, _, _, _.
Qed.

(** Up to the end of the ring wait nothing is done with the line. *)
Lemma screen_and_wait_emits cfg caller :
  emits (λ e, is_action e = false ∧ is_pick_up e = false ∧ is_hang_up e = false)
    (screen_and_wait cfg caller).
Proof.
  unfold screen_and_wait.
  apply emits_bind; [eapply emits_impl; [apply incoming_emits|]; by intros []|].
  intros phone_no. apply emits_bind.
  { unfold screen_caller. emits_with done. }
  intros s. unfold log_and_wait.
  apply emits_bind; [by apply emits_invoke|]. intros call_no.
  apply emits_bind; [by apply emits_print|]. intros _.
  apply emits_bind; [destruct (gather cfg s); [apply emits_ret|apply emits_raise]|].
  intros plan. apply emits_bind; [by apply ring_loop_emits|].
  intros []. apply emits_ret.
Qed.

Lemma answer_call_counts actions greeting call_no caller w :
  count is_pick_up (trace_of (answer_call actions greeting call_no caller w)) = 1%nat ∧
  count is_hang_up (trace_of (answer_call actions greeting call_no caller w))
    = (if acquired w then 1 else 0)%nat.
Proof.
  unfold acquired. destruct (modem_pick_up w) as [[[]|e] w1] eqn:Hp.
  - destruct (answer_actions actions greeting call_no caller w1) as [[r w2] t] eqn:Ha.
    rewrite (answer_call_acquired _ _ _ _ _ _ _ _ _ Hp Ha).
    pose proof (answer_actions_count is_pick_up actions greeting call_no caller w1) as Hpick.
    pose proof (answer_actions_count is_hang_up actions greeting call_no caller w1) as Hhang.
    rewrite Ha in Hpick, Hhang. triples.
    destruct (modem_hang_up w2) as [h w3]. triples. simpl.
    rewrite !count_app, Hpick, Hhang by (by intros [] [|]).
    by destruct r as [|e]; [|destruct (isinstance e RuntimeError)].
  - by rewrite (answer_call_not_acquired _ _ _ _ _ _ Hp).
  - by rewrite (answer_call_pick_up_raises _ _ _ _ _ _ _ Hp).
Qed.

(** The line over one call. *)
Lemma process_caller_counts cfg caller w :
  count is_pick_up (trace_of (process_caller cfg caller w))
    = match result_of (screen_and_wait cfg caller w) with
      | Ret (plan, _, ok_to_answer) =>
          if ok_to_answer && nonempty (actions plan) then 1%nat else 0%nat
      | Raise _ => 0%nat
      end ∧
  (count is_hang_up (trace_of (process_caller cfg caller w))
     ≤ count is_pick_up (trace_of (process_caller cfg caller w)))%nat ∧
  ((∀ w', acquired w' = true) →
   count is_hang_up (trace_of (process_caller cfg caller w))
     = count is_pick_up (trace_of (process_caller cfg caller w))).
Proof.
  unfold process_caller. rewrite trace_bind, !count_app.
  pose proof (screen_and_wait_emits cfg caller w) as Hs.
  rewrite (count_zero_Forall is_pick_up (trace_of (screen_and_wait cfg caller w)))
    by (eapply Forall_impl; [exact Hs|]; by intros e (? & ? & ?)).
  rewrite (count_zero_Forall is_hang_up (trace_of (screen_and_wait cfg caller w)))
    by (eapply Forall_impl; [exact Hs|]; by intros e (? & ? & ?)).
  destruct (screen_and_wait cfg caller w) as [[[[[plan call_no] ok]|e] w1] t1]; triples;
    [|done].
  unfold answer_if_ok. destruct (ok && nonempty (actions plan)); [|done].
  destruct (answer_call_counts (actions plan) (greeting_file plan) call_no caller w1)
    as [-> ->].
  split_and!; [done|destruct (acquired w1); simpl; lia|].
  intros Hacq. by rewrite Hacq.
Qed.


(** X10. Over a whole run the line is never hung up more often than it was
    picked up, and when every [pick_up()] succeeds there is one [hang_up()]
    for each [pick_up()], however the calls end. *)
Theorem line_released_over_run cfg pending w :
  (count is_hang_up (trace_of (run_loop cfg pending w))
     ≤ count is_pick_up (trace_of (run_loop cfg pending w)))%nat ∧
  ((∀ w', acquired w' = true) →
   count is_hang_up (trace_of (run_loop cfg pending w))
     = count is_pick_up (trace_of (run_loop cfg pending w))).
Proof.
  revert w. induction pending as [|caller pending IH]; intros w; [done|].
  rewrite run_loop_step.
  destruct (process_caller_counts cfg caller w) as (_ & Hle & Heq).
  destruct (process_caller cfg caller w) as [[[[]|e] w1] t]; triples.
  - destruct (IH w1) as [IHle IHeq].
    destruct (run_loop cfg pending w1) as [[r w2] t2]; triples. simpl.
    rewrite !count_app. split; [lia|].
    intros Hacq. rewrite (Heq Hacq), (IHeq Hacq). done.
  - destruct (isinstance e Exception); triples; simpl; rewrite ?count_app; simpl;
      (split; [lia|intros Hacq; rewrite (Heq Hacq); lia]).
Qed.

Lemma answer_call_answers_with plan call_no caller :
  emits (answers_with plan call_no caller)
    (answer_call (actions plan) (greeting_file plan) call_no caller).
Proof.
  unfold answer_call, answer_actions. emits_with ltac:(by simpl).
Qed.

(** X11. What is played and recorded belongs to the call: the greeting
    played is the greeting file of the caller's category, and a message is
    recorded, or the voice mail menu entered, for the caller at hand and
    under the number [log_caller] returned for this call. *)
Theorem answer_uses_logged_call cfg caller w plan call_no ok_to_answer w1 t1 :
  screen_and_wait cfg caller w = (Ret (plan, call_no, ok_to_answer), w1, t1) →
  (∃ s w2 t2 w3,
     screen_caller (SCREENING_MODE cfg) caller w = (Ret s, w2, t2) ∧
     logger_log_caller caller (action s) (reason s) w2 = (Ret call_no, w3) ∧
     gather cfg s = Some plan) ∧
  Forall (answers_with plan call_no caller) (trace_of (process_caller cfg caller w)).
Proof.
  intros Hs. split.
  - unfold screen_and_wait in Hs.
    apply bind_Ret_inv in Hs as (phone_no & w0 & t0 & t0' & Hi & Hs & _).
    apply incoming_ret in Hi as (_ & -> & _).
    apply bind_Ret_inv in Hs as (s & w2 & t2 & t2' & Hscreen & Hs & _).
    exists s, w2, t2.
    unfold log_and_wait in Hs.
    apply bind_Ret_inv in Hs as (n & w3 & t3 & t3' & Hlog & Hs & _).
    apply bind_Ret_inv in Hs as ([] & w4 & t4 & t4' & Hprint & Hs & _).
    apply bind_Ret_inv in Hs as (plan' & w5 & t5 & t5' & Hplan & Hs & _).
    apply bind_Ret_inv in Hs as ([ok rc] & w6 & t6 & t6' & _ & Hs & _).
    unfold ret in Hs. simplify_eq.
    unfold invoke in Hlog.
    destruct (logger_log_caller caller (action s) (reason s) w2) as [r w3'] eqn:Hl.
    simplify_eq. exists w3. split_and!; [done..|].
    destruct (gather cfg s); [|done]. unfold ret in Hplan. by simplify_eq.
  - unfold process_caller. rewrite trace_bind, Hs. triples.
    apply Forall_app. split.
    + pose proof (screen_and_wait_emits cfg caller w) as He. rewrite Hs in He. triples.
      eapply Forall_impl; [exact He|]. by intros [] (? & ? & ?).
    + unfold answer_if_ok. destruct (ok_to_answer && nonempty (actions plan)).
      * apply answer_call_answers_with.
      * constructor.
Qed.

(** X12. With actions that name none of "greeting", "record_message" and
    "voice_mail", [answer_call] simply picks up and hangs up: nothing is
    played or recorded, and the line is taken and released once when
    [pick_up()] succeeds. *)
Theorem answer_call_no_known_action actions greeting call_no caller w :
  "greeting" ∉ actions → "record_message" ∉ actions → "voice_mail" ∉ actions →
  answer_call actions greeting call_no caller w =
    match modem_pick_up w with
    | (Ret true, w1) =>
        let '(h, w2) := modem_hang_up w1 in
        (match h with Ret _ => Ret tt | Raise e => Raise e end, w2, [EPickUp; EHangUp])
    | (Ret false, w1) => (Ret tt, w1, [EPickUp])
    | (Raise e, w1) => (Raise e, w1, [EPickUp])
    end.
Proof.
  intros Hg Hr Hv. destruct (modem_pick_up w) as [[[]|e] w1] eqn:Hp.
  - assert (answer_actions actions greeting call_no caller w1 = (Ret tt, w1, [])) as Ha.
    { unfold answer_actions, bind, ret.
      by rewrite !bool_decide_false by done. }
    rewrite (answer_call_acquired _ _ _ _ _ _ _ _ _ Hp Ha). simpl.
    by destruct (modem_hang_up w1) as [[[]|e] w2].
  - by apply answer_call_not_acquired.
  - by apply answer_call_pick_up_raises.
Qed.

End MoreAnswering.

(** ** The number of the caller, the ring count *)

Lemma append_nil_l s : "" +:+ s = s.
Proof. done. Qed.

Lemma append_cons b s1 s2 : String b s1 +:+ s2 = String b (s1 +:+ s2).
Proof. done. Qed.

Lemma join_app cs1 cs2 : join (cs1 ++ cs2) = join cs1 +:+ join cs2.
Proof.
  induction cs1 as [|c cs1 IH]; simpl; [done|].
  rewrite IH. clear IH. induction c as [|b c IHc]; [done|].
  change (String b (c +:+ (join cs1 +:+ join cs2)) = String b ((c +:+ join cs1) +:+ join cs2)).
  by f_equal.
Qed.

Lemma join_code_points s : join (code_points s) = s.
Proof.
  induction s as [|b s IH]; simpl; [done|].
  destruct (code_points s) as [|c cs]; [by rewrite <- IH|].
  destruct (starts_with_continuation c); by rewrite <- IH.
Qed.

Lemma code_points_are_wf s : code_points_wf (code_points s).
Proof.
  induction s as [|b s IH]; simpl; [done|].
  destruct (code_points s) as [|c cs]; simpl in *.
  - split; [by exists b, EmptyString|constructor].
  - destruct IH as [(b0 & tl & -> & Htl) Hcs]. simpl.
    destruct (is_continuation b0) eqn:Hb0; simpl.
    + split; [|done]. exists b, (String b0 tl). split; [done|]. simpl. by rewrite Hb0.
    + split; [by exists b, EmptyString|].
      constructor; [|done]. split; [by exists b0, tl|done].
Qed.

(** A code point in front of a string whose code points are known. *)
Lemma code_points_cons tl b rest :
  all_continuation tl = true →
  match code_points rest with
  | c :: _ => starts_with_continuation c = false
  | [] => True
  end →
  code_points (String b (tl +:+ rest)) = String b tl :: code_points rest.
Proof.
  revert b. induction tl as [|b' tl IH]; intros b Htl Hrest.
  - rewrite append_nil_l. simpl.
    destruct (code_points rest) as [|c cs]; [done|]. by rewrite Hrest.
  - apply andb_prop in Htl as [Hb' Htl].
    rewrite append_cons.
    change (code_points (String b (String b' (tl +:+ rest))))
      with (match code_points (String b' (tl +:+ rest)) with
            | c :: cs =>
                if starts_with_continuation c then String b c :: cs
                else String b EmptyString :: c :: cs
            | [] => [String b EmptyString]
            end).
    rewrite (IH b' Htl Hrest). simpl. by rewrite Hb'.
Qed.

(** Code points that are put together come apart as they were. *)
Lemma code_points_join cs : code_points_wf cs → code_points (join cs) = cs.
Proof.
  destruct cs as [|c cs]; [done|]. intros [Hc Hcs].
  revert c Hc. induction Hcs as [|c' cs [Hc' Hstart] Hcs IH]; intros c (b & tl & -> & Htl).
  - change (join [String b tl]) with (String b (tl +:+ join [])).
    by rewrite code_points_cons.
  - change (join (String b tl :: c' :: cs)) with (String b (tl +:+ join (c' :: cs))).
    rewrite code_points_cons; [by rewrite IH|done|by rewrite IH].
Qed.

Lemma code_points_wf_take k cs : code_points_wf cs → code_points_wf (take k cs).
Proof.
  destruct cs as [|c cs]; [by destruct k|]. intros [Hc Hcs].
  destruct k as [|k]; [done|]. split; [done|by apply Forall_take].
Qed.

Lemma code_points_wf_drop k cs : code_points_wf cs → code_points_wf (drop k cs).
Proof.
  revert cs. induction k as [|k IH]; intros cs Hcs; [by rewrite drop_0|].
  destruct cs as [|c cs]; [done|]. simpl. apply IH.
  destruct Hcs as [_ Hcs]. destruct cs as [|c' cs]; [done|].
  apply Forall_cons in Hcs as [[Hc' _] Hcs]. by split.
Qed.

(** A slice of a string holds the code points between its bounds. *)
Lemma code_points_str_slice s start stop :
  code_points (str_slice s start stop)
    = take (default (length (code_points s)) stop - start) (drop start (code_points s)).
Proof.
  unfold str_slice.
  apply code_points_join, code_points_wf_take, code_points_wf_drop, code_points_are_wf.
Qed.

(** X13. The phone number printed for a call is the number of the caller
    cut after its third and its sixth character (code point), with a dash
    at each cut: the first part holds the first three characters of the
    number, the second the next three and the third the rest, and put
    together they are the number again, whatever its length (a marker such
    as "P" or an empty number included). *)
Theorem phone_no_keeps_number {W : Type} caller number (w : W) :
  caller !! "NMBR" = Some (PyStr number) →
  ∃ n1 n2 n3,
    incoming caller w
      = (Ret (n1 +:+ "-" +:+ n2 +:+ "-" +:+ n3), w,
         [EPrint ("Incoming call from " +:+ n1 +:+ "-" +:+ n2 +:+ "-" +:+ n3)]) ∧
    n1 +:+ n2 +:+ n3 = number ∧
    code_points n1 = take 3 (code_points number) ∧
    code_points n2 = take 3 (drop 3 (code_points number)) ∧
    code_points n3 = drop 6 (code_points number).
Proof.
  intros Hn. rewrite (incoming_str _ _ _ Hn).
  eexists _, _, _. split; [reflexivity|].
  rewrite !code_points_str_slice. simpl.
  assert (take (length (code_points number) - 6) (drop 6 (code_points number))
          = drop 6 (code_points number)) as Hrest.
  { apply take_ge. rewrite length_drop. lia. }
  split_and!; [|done..].
  unfold str_slice. simpl. rewrite Hrest, <- !join_app.
  replace (drop 6 (code_points number)) with (drop 3 (drop 3 (code_points number)))
    by (by rewrite drop_drop).
  by rewrite !take_drop, join_code_points.
Qed.

Lemma rings_heard_all signals :
  forallb id signals = true → rings_heard signals = length signals.
Proof.
  induction signals as [|[] signals IH]; simpl; [done| |done].
  intros Hs. by rewrite IH.
Qed.

Lemma rings_heard_some signals :
  forallb id signals = false → (rings_heard signals < length signals)%nat.
Proof.
  induction signals as [|[] signals IH]; simpl; [done| |lia].
  intros Hs. specialize (IH Hs). lia.
Qed.

(** X14. The ring wait never counts past [rings_before_answer]: the ring
    count it ends with lies between the count it started from and the
    larger of that count and [rings_before_answer], it says "ok to answer"
    exactly when the count reached that bound, and it makes no more waits
    than there were rings missing. *)
Theorem ring_count_bounds {W : Type} {collaborators : Collaborators W} N ring_count (w : W) :
  ∃ ok_to_answer ring_count',
    result_of (ring_loop N ring_count w) = Ret (ok_to_answer, ring_count') ∧
    ring_count ≤ ring_count' ≤ Z.max N ring_count ∧
    (ok_to_answer = true ↔ ring_count' = Z.max N ring_count) ∧
    (count is_ring_wait (trace_of (ring_loop N ring_count w))
       ≤ Z.to_nat (N - ring_count))%nat.
Proof.
  destruct (ring_loop_spec (Z.to_nat (N - ring_count)) N ring_count w eq_refl)
    as (Hr & _ & Hc & _).
  pose proof (ring_signals_length (Z.to_nat (N - ring_count)) w) as Hlen.
  eexists _, _. split; [exact Hr|]. rewrite Hc.
  destruct (forallb id (ring_signals (Z.to_nat (N - ring_count)) w)) eqn:Hok.
  - apply rings_heard_all in Hok. rewrite Hok, Hlen. split_and!; [lia..| |lia].
    split; [lia|done].
  - apply rings_heard_some in Hok. rewrite Hlen in Hok. split_and!; [lia..| |lia].
    split; [done|lia].
Qed.

(** ** The command line *)

Section MoreCommandLine.
Context {W : Type}.
Variable getopt :
  list string → string → list string → option (list (string * string) * list string).

Lemma last_config_cons o opts :
  last_config (o :: opts)
    = match last_config opts with
      | Some f => Some f
      | None => if is_config_opt o then Some o.2 else None
      end.
Proof.
  unfold last_config. simpl.
  destruct (is_config_opt o); [rewrite last_cons|];
    by destruct (last (List.filter is_config_opt opts)).
Qed.

Lemma get_args_loop_spec opts configfile (w : W) :
  get_args_loop opts configfile w =
    if existsb is_help_opt opts
    then (Raise (mkExn SystemExit ""), w, help_text)
    else (Ret (match last_config opts with Some f => Some f | None => configfile end), w, []).
Proof.
  revert configfile. induction opts as [|[opt arg] opts IH]; intros configfile; [done|].
  simpl. unfold is_help_opt at 1. simpl.
  destruct (bool_decide (opt ∈ ["-h"; "--help"])) eqn:Hh; simpl; [done|].
  rewrite last_config_cons. unfold is_config_opt at 1. simpl.
  destruct (bool_decide (opt ∈ ["-c"; "--config"])); rewrite IH;
    destruct (existsb is_help_opt opts); try done;
    by destruct (last_config opts).
Qed.

(** X15. What [get_args] makes of the command line.  When [getopt] rejects
    it, the usage line is printed and the program exits with status 2.
    When a help option is among the options, wherever it stands, the help
    text is printed and the program exits through [sys.exit()], whatever
    configuration file was named.  Otherwise nothing is printed and the
    result is the argument of the last [-c] or [--config], or [None] when
    there is none; the arguments left over are ignored. *)
Theorem get_args_spec argv (w : W) :
  get_args getopt argv w =
    match getopt (drop 1 argv) "hc:" ["help"; "config="] with
    | None => (Raise (mkExn SystemExit "2"), w, [EPrint syntax])
    | Some (opts, _) =>
        if existsb is_help_opt opts
        then (Raise (mkExn SystemExit ""), w, help_text)
        else (Ret (last_config opts), w, [])
    end.
Proof.
  unfold get_args. destruct (getopt _ _ _) as [[opts args]|]; [|done].
  rewrite get_args_loop_spec. destruct (existsb is_help_opt opts); [done|].
  by destruct (last_config opts).
Qed.

End MoreCommandLine.

(** ** [main] *)

Section MoreMain.
Context {W : Type} {collaborators : Collaborators W}.
Variable getopt :
  list string → string → list string → option (list (string * string) * list string).
Variable make_config : option string → M W Config.
Variable Config_validate : Config → M W bool.
Variable construct_collaborators : Config → M W unit.

Lemma run_Returned (self : CallAttendant) (w : W) code :
  result_of (run self w) = Ret (Returned code) → code = 1.
Proof.
  unfold run, bind, invoke.
  destruct (modem_handle_calls w) as [[[]|e] w1]; simpl; [|done].
  pose proof (run_loop_outcomes (config self) (_caller_queue self) w1) as H.
  destruct (run_loop (config self) (_caller_queue self) w1) as [[[[c|]|e] w2] t2];
    triples; simpl; intros; by simplify_eq.
Qed.

(** X16. The exit status of the program.  With a configuration that does
    not validate, [main] prints which file to check and returns 1, and
    nothing of the engine is created or run.  With a valid one the
    collaborators are created, the engine runs, and whenever [run] returns
    (which it only does with 1, after an error) [main] returns 0: the value
    of [run] is dropped. *)
Theorem main_exit_status argv arrivals w config_file w1 t1 cfg w2 t2 valid w3 t3 :
  get_args getopt argv w = (Ret config_file, w1, t1) →
  make_config config_file w1 = (Ret cfg, w2, t2) →
  Config_validate cfg w2 = (Ret valid, w3, t3) →
  if valid then
    ∀ w4 t4,
      construct_collaborators cfg w3 = (Ret tt, w4, t4) →
      main getopt make_config Config_validate construct_collaborators argv arrivals w
        = (let '(r, w5, t5) := run (mkCallAttendant cfg arrivals) w4 in
           (match r with
            | Ret (Returned _) => Ret (Returned 0)
            | Ret WaitingForCaller => Ret WaitingForCaller
            | Raise e => Raise e
            end,
            w5, t1 ++ t2 ++ t3 ++ t4 ++ t5)) ∧
      (∀ code, result_of (run (mkCallAttendant cfg arrivals) w4) = Ret (Returned code) →
               code = 1)
  else
    main getopt make_config Config_validate construct_collaborators argv arrivals w
      = (Ret (Returned 1), w3,
         t1 ++ t2 ++ t3
           ++ [EPrint ("Configuration is invalid. Please check "
                       +:+ format_optional config_file)]).
Proof.
  intros Hargs Hconfig Hvalid. unfold main.
  rewrite (bind_Ret _ _ _ _ _ _ Hargs), (bind_Ret _ _ _ _ _ _ Hconfig),
    (bind_Ret _ _ _ _ _ _ Hvalid).
  destruct valid; simpl.
  - intros w4 t4 Hnew. split; [|apply run_Returned].
    unfold CallAttendant_new.
    rewrite (bind_Ret _ (λ app, bind (run app) _) w3 (mkCallAttendant cfg arrivals) w4 t4);
      last first.
    { rewrite (bind_Ret _ _ _ _ _ _ Hnew). unfold ret. by rewrite app_nil_r. }
    unfold bind at 1.
    destruct (run (mkCallAttendant cfg arrivals) w4) as [[[[code|]|e] w5] t5];
      unfold ret; by rewrite ?app_nil_r.
  - unfold bind, print, emit, ret. by simpl.
Qed.

End MoreMain.

(** ** More runs on concrete calls *)

Lemma callers_popped_in_order_witness :
  popped (trace_of (run_loop (collaborators:=scripted quiet) home [alice; bob] [true; true]))
    = [alice; bob].
Proof.
  destruct (callers_popped_in_order (collaborators:=scripted quiet)
              home [alice; bob] [true; true]) as [_ H].
  apply H. vm_compute. reflexivity.
Defined.

Lemma blacklist_blocks_witness :
  ELogCaller bob "Blocked" "spam"
    ∈ trace_of (process_caller (collaborators:=scripted known_spammer) home bob []).
Proof.
  destruct (blacklist_blocks (collaborators:=scripted known_spammer)
              home bob [] [] "" "spam" [] []) as (_ & _ & H).
  - apply (bool_decide_eq_true_1 ("blacklist" ∈ SCREENING_MODE home)).
    vm_compute. reflexivity.
  - vm_compute. reflexivity.
  - vm_compute. reflexivity.
  - vm_compute. reflexivity.
  - apply (H "5559998888"). vm_compute. reflexivity.
Defined.

Lemma plan_follows_category_witness :
  let s := mkScreening false false true "Blocked" "spam" in
  (action s = "Permitted" ∧ gather home s = Some (PERMITTED_ home))
  ∨ (action s = "Screened" ∧ gather home s = Some (SCREENED_ home))
  ∨ (action s = "Blocked" ∧ gather home s = Some (BLOCKED_ home)).
Proof.
  intros s.
  apply (plan_follows_category (collaborators:=scripted known_spammer)
           home (SCREENING_MODE home) bob [] s []
           [EPrint "> Checking whitelist(s)"; EIsWhitelisted bob;
            EPrint "> Checking blacklist(s)"; EIsBlacklisted bob; EBlockedBlink]).
  vm_compute. reflexivity.
Defined.

Lemma screening_calls_witness :
  let t := [EPrint "> Checking whitelist(s)"; EIsWhitelisted bob;
            EPrint "> Checking blacklist(s)"; EIsBlacklisted bob; EBlockedBlink] in
  let s := mkScreening false false true "Blocked" "spam" in
  count is_is_whitelisted t
    = (if bool_decide ("whitelist" ∈ SCREENING_MODE home) then 1 else 0)%nat ∧
  count is_is_blacklisted t
    = (if negb (caller_permitted s) && bool_decide ("blacklist" ∈ SCREENING_MODE home)
       then 1 else 0)%nat ∧
  count is_approved_blink t = (if caller_blocked s then 0 else 1)%nat ∧
  count is_blocked_blink t = (if caller_blocked s then 1 else 0)%nat.
Proof.
  intros t s.
  apply (screening_calls (collaborators:=scripted known_spammer)
           (SCREENING_MODE home) bob [] s [] t).
  vm_compute. reflexivity.
Defined.

Lemma line_released_over_run_witness :
  count is_hang_up
    (trace_of (run_loop (collaborators:=scripted quiet) home [alice; bob] [true; true]))
  = count is_pick_up
      (trace_of (run_loop (collaborators:=scripted quiet) home [alice; bob] [true; true])).
Proof.
  destruct (line_released_over_run (collaborators:=scripted quiet)
              home [alice; bob] [true; true]) as [_ H].
  apply H. intros w'. reflexivity.
Defined.

Lemma answer_uses_logged_call_witness :
  Forall (answers_with (SCREENED_ home) 1 alice)
    (trace_of (process_caller (collaborators:=scripted quiet) home alice [true])).
Proof.
  destruct (answer_uses_logged_call (collaborators:=scripted quiet)
              home alice [true] (SCREENED_ home) 1 true []
              [EPrint "Incoming call from 555-123-4567";
               EPrint "> Checking whitelist(s)"; EIsWhitelisted alice;
               EPrint "> Checking blacklist(s)"; EIsBlacklisted alice;
               EApprovedBlink;
               ELogCaller alice "Screened" "";
               EPrint "--> 555-123-4567 Screened: ";
               ERingWait 7; EPrint " > > > Ring count: 2"]) as [_ H].
  - vm_compute. reflexivity.
  - exact H.
Defined.

Lemma answer_call_no_known_action_witness :
  answer_call (collaborators:=scripted quiet) ["ignore"] "screened.wav" 1 alice []
    = (Ret tt, [], [EPickUp; EHangUp]).
Proof.
  apply (answer_call_no_known_action (collaborators:=scripted quiet)
           ["ignore"] "screened.wav" 1 alice []).
  - apply (bool_decide_eq_false_1 ("greeting" ∈ ["ignore"])). vm_compute. reflexivity.
  - apply (bool_decide_eq_false_1 ("record_message" ∈ ["ignore"])). vm_compute. reflexivity.
  - apply (bool_decide_eq_false_1 ("voice_mail" ∈ ["ignore"])). vm_compute. reflexivity.
Defined.

Lemma phone_no_keeps_number_witness :
  ∃ n1 n2 n3,
    incoming (W:=list bool) alice []
      = (Ret (n1 +:+ "-" +:+ n2 +:+ "-" +:+ n3), [],
         [EPrint ("Incoming call from " +:+ n1 +:+ "-" +:+ n2 +:+ "-" +:+ n3)]) ∧
    n1 +:+ n2 +:+ n3 = "5551234567" ∧
    code_points n1 = take 3 (code_points "5551234567") ∧
    code_points n2 = take 3 (drop 3 (code_points "5551234567")) ∧
    code_points n3 = drop 6 (code_points "5551234567").
Proof.
  apply (phone_no_keeps_number (W:=list bool) alice "5551234567" []).
  vm_compute. reflexivity.
Defined.

(** A number with a character of three bytes is cut after its third and
    sixth character, as Python cuts it. *)
Example phone_no_code_points :
  incoming (W:=unit) {[ "NMBR" := PyStr "☎5551234" ]} tt
    = (Ret "☎55-512-34", tt, [EPrint "Incoming call from ☎55-512-34"]).
Proof. vm_compute. reflexivity. Qed.

Lemma ring_count_bounds_witness :
  ∃ ok_to_answer ring_count',
    result_of (ring_loop (collaborators:=scripted quiet) 3 1 [true])
      = Ret (ok_to_answer, ring_count') ∧
    1 ≤ ring_count' ≤ Z.max 3 1 ∧
    (ok_to_answer = true ↔ ring_count' = Z.max 3 1) ∧
    (count is_ring_wait (trace_of (ring_loop (collaborators:=scripted quiet) 3 1 [true]))
       ≤ Z.to_nat (3 - 1))%nat.
Proof. apply (ring_count_bounds (collaborators:=scripted quiet) 3 1 [true]). Defined.

(** The engine stops on a caller without a number, and the program ends
    with status 0. *)
Lemma main_exit_status_witness :
  main (collaborators:=scripted quiet) getopt_command_line
      (λ _, ret home) (λ _, ret true) (λ _, ret tt) command_line [anonymous] []
    = (Ret (Returned 0), [],
       [EHandleCalls; EQueueGet anonymous;
        EPPrintExn (mkExn KeyError "NMBR");
        EPrint "** Error running callattendant. Exiting."]).
Proof.
  pose proof (main_exit_status (collaborators:=scripted quiet) getopt_command_line
    (λ _, ret home) (λ _, ret true) (λ _, ret tt) command_line [anonymous] []
    (Some "app.cfg") [] [] home [] [] true [] []
    ltac:(vm_compute; reflexivity) ltac:(vm_compute; reflexivity)
    ltac:(vm_compute; reflexivity)) as H.
  simpl in H. destruct (H [] [] eq_refl) as [Hmain _].
  rewrite Hmain. vm_compute. reflexivity.
Defined.

(** The command lines [get_args] tells apart. *)
Example get_args_help_wins :
  get_args (W:=unit)
      (getopt_table [(["-c"; "app.cfg"; "-h"], [("-c", "app.cfg"); ("-h", "")])])
      ["callattendant.py"; "-c"; "app.cfg"; "-h"] tt
    = (Raise (mkExn SystemExit ""), tt, help_text).
Proof. vm_compute. reflexivity. Qed.

Example get_args_last_config :
  get_args (W:=unit)
      (getopt_table [(["-c"; "a.cfg"; "--config"; "b.cfg"],
                      [("-c", "a.cfg"); ("--config", "b.cfg")])])
      ["callattendant.py"; "-c"; "a.cfg"; "--config"; "b.cfg"] tt
    = (Ret (Some "b.cfg"), tt, []).
Proof. vm_compute. reflexivity. Qed.
